(** * A shallow embedding of [main.py]

    [main.py] starts two processes: an HTTP server (class
    [SimpleHttpHandler]: [do_GET], [do_POST], [_send_html_file],
    [_send_static_file], [_send_404], and the helper [_is_under]) and a
    UDP listener ([run_socket_server]) that stores form submissions in
    MongoDB.

    The handler methods are embedded as computations in a small
    writer-and-exception monad: a computation yields either a value or a
    raised Python exception, together with the list of externally visible
    calls it made, in order.  The listener is embedded in a state and
    exception monad over its collection and its printed lines.
    Everything the code obtains from the interpreter's libraries and from
    the operating system (urllib, pathlib, mimetypes, sockets, the clock,
    the database) is a field of a record ([Env], [Codec], [Arrival]); the
    theorems hold for every value of these records.  The modules [Sample]
    and [SampleCodec] give concrete values on which the code can be
    run. *)

From Stdlib Require Import ZArith NArith Lia Bool.
From Stdlib Require Import Strings.String Strings.Ascii Strings.Byte.
From stdpp Require Import base option list strings gmap pretty.

Local Open Scope string_scope.
Local Open Scope Z_scope.
Local Open Scope list_scope.

(** * Part I: definitions *)

(** ** Python values *)

(** [bytes] objects. *)
Definition bytes := list byte.

(** A [bytes] literal. *)
Definition bytes_lit (s : string) : bytes := list_byte_of_string s.

(** [str(n)] for a non-negative [int]. *)
Definition py_str (n : nat) : string := pretty n.
Arguments py_str : simpl never.

(** The line feed of the f-strings that end in a newline. *)
Definition LF : string := String (ascii_of_nat 10) EmptyString.

(** [s.startswith(p)]. *)
Definition startswith (s p : string) : bool := String.prefix p s.

(** [s[n:]]. *)
Fixpoint slice_from (n : nat) (s : string) : string :=
  match n, s with
  | O, _ => s
  | S n', String _ s' => slice_from n' s'
  | S _, EmptyString => EmptyString
  end.

(** ** Exceptions *)

(** The classes of [Exception] the program can meet.  Every value of
    [exc] is an instance of [Exception], so [except Exception] catches
    all of them; [except socket.error] ([socket.error] is [OSError])
    catches those of class [OSError] only.  Asynchronous
    [BaseException]s (a keyboard interrupt, interpreter exit) are not
    part of the model. *)
Inductive exc_class :=
| OSError | ValueError | IndexError | RecursionError | RuntimeError
| OverflowError | MemoryError | ConnectionFailure | PyMongoError
| OtherException.

Record exc := Exc { exc_cls : exc_class; exc_str : string }.

Global Instance exc_class_eq_dec : EqDecision exc_class.
Proof. solve_decision. Defined.

Inductive result (A : Type) :=
| Ok (a : A)
| Raise (e : exc).
Arguments Ok {A} a.
Arguments Raise {A} e.

(** ** [int(s)] and [rfile.read(n)] *)

(** A header value is a [str] of Latin-1 characters, one [ascii] each.
    The characters [int] skips around a literal: tab to carriage return,
    space, and the two Latin-1 spaces NEL and NBSP. *)
Definition int_isspace (a : ascii) : bool :=
  let n := nat_of_ascii a in
  ((9 <=? n) && (n <=? 13) || (n =? 32) || (n =? 133) || (n =? 160))%nat.

Definition digit_of (a : ascii) : option Z :=
  let n := nat_of_ascii a in
  if ((48 <=? n) && (n <=? 57))%nat then Some (Z.of_nat n - 48) else None.

Definition is_underscore (a : ascii) : bool := (nat_of_ascii a =? 95)%nat.

Fixpoint skip_spaces (s : list ascii) : list ascii :=
  match s with
  | c :: s' => if int_isspace c then skip_spaces s' else s
  | [] => []
  end.

(** The digits of a decimal literal, single underscores allowed between
    them: the value, the number of digits and what follows, or [None]
    for a doubled or trailing underscore. *)
Fixpoint scan_digits (prev_us : bool) (digits : nat) (acc : Z)
    (s : list ascii) : option (Z * nat * list ascii) :=
  match s with
  | [] => if prev_us then None else Some (acc, digits, [])
  | c :: s' =>
      if is_underscore c then
        if prev_us then None else scan_digits true digits acc s'
      else
        match digit_of c with
        | Some v => scan_digits false (S digits) (10 * acc + v) s'
        | None => if prev_us then None else Some (acc, digits, s)
        end
  end.

(** [sys.get_int_max_str_digits()], at its default. *)
Definition int_max_str_digits : nat := 4300.

Definition invalid_literal : exc :=
  Exc ValueError "invalid literal for int() with base 10".

(** [int(s)]: optional spaces, an optional sign, the digits, optional
    spaces. *)
Definition py_int (s : string) : result Z :=
  let s0 := skip_spaces (list_ascii_of_string s) in
  let '(sign, s1) :=
    match s0 with
    | c :: r => if (nat_of_ascii c =? 43)%nat then (1, r)
                else if (nat_of_ascii c =? 45)%nat then (-1, r)
                else (1, s0)
    | [] => (1, s0)
    end in
  match s1 with
  | c :: _ =>
      if is_underscore c then Raise invalid_literal
      else
        match scan_digits false 0 0 s1 with
        | Some (v, digits, rest) =>
            if (digits =? 0)%nat then Raise invalid_literal
            else if (int_max_str_digits <? digits)%nat then
              Raise (Exc ValueError "Exceeds the limit for integer string conversion")
            else
              match skip_spaces rest with
              | [] => Ok (sign * v)
              | _ :: _ => Raise invalid_literal
              end
        | None => Raise invalid_literal
        end
  | [] => Raise invalid_literal
  end.

(** [sys.maxsize] on a 64-bit interpreter. *)
Definition sys_maxsize : Z := 2 ^ 63 - 1.

(** The size of the header of a [bytes] object with its final zero
    byte, on a 64-bit interpreter: a [bytes] object holds at most
    [sys.maxsize - PyBytesObject_SIZE] bytes. *)
Definition PyBytesObject_SIZE : Z := 33.

(** [rfile.read(n)] on the buffered reader of the connection, [f] being
    the bytes that arrive before the end of the stream: [n] bytes (fewer
    at the end of the stream), everything for [-1].  The argument has
    to fit a C [ssize_t], from [-sys.maxsize - 1] to [sys.maxsize], and
    must not be below [-1].  A read of no byte returns the empty
    [bytes] object at once.  Any other read first creates a [bytes]
    object for [n] bytes, whatever the stream holds: [OverflowError]
    when no [bytes] object can be that long, and [MemoryError] when the
    machine does not have the memory, [enough_memory n] telling whether
    it has. *)
Definition rfile_read (enough_memory : Z → bool) (f : bytes) (n : Z)
    : result bytes :=
  if (n <? - sys_maxsize - 1) || (sys_maxsize <? n) then
    Raise (Exc OverflowError "cannot fit 'int' into an index-sized integer")
  else if n <? -1 then
    Raise (Exc ValueError "read length must be non-negative or -1")
  else if n =? -1 then Ok f
  else if n =? 0 then Ok []
  else if sys_maxsize - PyBytesObject_SIZE <? n then
    Raise (Exc OverflowError "byte string is too large")
  else if enough_memory n then Ok (take (Z.to_nat n) f)
  else Raise (Exc MemoryError "").

(** ** pathlib and urllib data *)

(** A [pathlib.Path], as its tuple [Path.parts]. *)
Definition Path := list string.

Module urllib.
(** The six-field result of [urllib.parse.urlparse]. *)
Record ParseResult := {
  scheme : string; netloc : string; path : string;
  params : string; query : string; fragment : string }.
End urllib.

(** [child.relative_to(parent)]: the parts of [child] after those of
    [parent], or [ValueError] when [parent]'s parts are not a prefix of
    [child]'s. *)
Fixpoint relative_to (child parent : Path) {struct parent} : result Path :=
  match parent, child with
  | [], _ => Ok child
  | q :: parent', c :: child' =>
      if String.eqb c q then relative_to child' parent'
      else Raise (Exc ValueError "is not in the subpath of")
  | _ :: _, [] => Raise (Exc ValueError "is not in the subpath of")
  end.

(** [_is_under(child, parent)] (main.py, l.152-158): [True] when
    [relative_to] returns, [False] when it raises [ValueError], the one
    class it raises. *)
Definition _is_under (child parent : Path) : bool :=
  match relative_to child parent with
  | Ok _ => true
  | Raise _ => false
  end.

(** ** The handler's world *)

(** The outcome of a socket call: success, or an [OSError] with its
    text. *)
Inductive sock_result (A : Type) :=
| SockOk (a : A)
| SockError (strerror : string).
Arguments SockOk {A} a.
Arguments SockError {A} strerror.

(** Everything a request handler gets from outside [main.py]. *)
Record Env := {
  (** [TEMPLATES_DIR], [STATIC_DIR]: both resolved when the module is
      loaded. *)
  TEMPLATES_DIR : Path;
  STATIC_DIR : Path;
  (** [urllib.parse.urlparse]; it raises [ValueError] on some inputs. *)
  urlparse : string → result urllib.ParseResult;
  (** [base / name]. *)
  joinpath : Path → string → Path;
  (** [p.resolve()], [p.exists()], [p.is_file()], [p.read_bytes()],
      [str(p)]: the file system as the request finds it. *)
  resolve : Path → result Path;
  exists_ : Path → result bool;
  is_file : Path → result bool;
  read_bytes : Path → result bytes;
  Path_str : Path → string;
  (** [mimetypes.guess_type]: the pair (type, encoding). *)
  guess_type : string → option string * option string;
  (** [socket.socket(AF_INET, SOCK_DGRAM)] and [sock.sendto]. *)
  socket_socket : sock_result unit;
  sendto : bytes → string * Z → sock_result Z;
  (** The machine and the interpreter: whether a [bytes] object of [n]
      bytes can be allocated, and the text of the [RecursionError] the
      interpreter raises at its recursion limit (it varies with the
      interpreter's version and with the call that met the limit). *)
  enough_memory : Z → bool;
  recursion_text : string;
}.

(** What the interpreter raises when a call would exceed its recursion
    limit. *)
Definition recursion_error (env : Env) : exc :=
  Exc RecursionError (recursion_text env).

(** The request as [BaseHTTPRequestHandler] hands it to the methods:
    [self.path], [self.headers.get(name)] ([None] when the header is
    absent) and the bytes [self.rfile] still holds. *)
Record Handler := {
  path : string;
  headers : string → option string;
  rfile : bytes;
}.

(** ** Configuration constants (main.py, l.37-41) *)

Definition SOCKET_HOST : string := "0.0.0.0".
Definition SOCKET_PORT : Z := 5000.

Definition OK : Z := 200.
Definition SEE_OTHER : Z := 303.
Definition NOT_FOUND : Z := 404.

(** ** The handler monad *)

(** The calls a handler makes that the outside can observe.  The calls
    that write (to the connection, to [stderr]) always return in the
    model: a connection the client has closed is outside it. *)
Inductive event :=
| ReadBytes (p : Path)             (* p.read_bytes() *)
| SendResponse (code : Z)          (* self.send_response(code) *)
| SendHeader (k v : string)        (* self.send_header(k, v) *)
| EndHeaders                       (* self.end_headers() *)
| WfileWrite (body : bytes)        (* self.wfile.write(body) *)
| Stderr (s : string)              (* sys.stderr.write(s) *)
| Sendto (body : bytes) (addr : string * Z). (* sock.sendto(body, addr) *)

(** A handler computation: its outcome and the calls made, oldest
    first. *)
Definition Eff (A : Type) : Type := result A * list event.

Global Instance Eff_ret : MRet Eff := λ A a, (Ok a, []).

Global Instance Eff_bind : MBind Eff := λ A B f m,
  match m with
  | (Ok a, t) => let '(r, t') := f a in (r, t ++ t')
  | (Raise e, t) => (Raise e, t)
  end.

Definition raise {A} (e : exc) : Eff A := (Raise e, []).

Definition emit (ev : event) : Eff unit := (Ok (), [ev]).

(** A library call that returns or raises, without a visible effect. *)
Definition call {A} (r : result A) : Eff A := (r, []).

(** [try: body / except Exception as e: handler(e)]. *)
Definition try_except {A} (body : Eff A) (handler : exc → Eff A) : Eff A :=
  match body with
  | (Ok a, t) => (Ok a, t)
  | (Raise e, t) => let '(r, t') := handler e in (r, t ++ t')
  end.

(** [try: body / except cls as e: handler(e)] for one class. *)
Definition try_except_cls {A} (cls : exc_class) (body : Eff A)
    (handler : exc → Eff A) : Eff A :=
  match body with
  | (Ok a, t) => (Ok a, t)
  | (Raise e, t) =>
      if decide (exc_cls e = cls)
      then let '(r, t') := handler e in (r, t ++ t')
      else (Raise e, t)
  end.

(** A socket call inside a handler: an error is raised as [OSError]. *)
Definition sock {A} (r : sock_result A) : Eff A :=
  match r with
  | SockOk a => mret a
  | SockError s => raise (Exc OSError s)
  end.

(** ** [SimpleHttpHandler] *)

Section handler.
Context (env : Env).

(** [x or y] on an optional string: [None] and the empty string are
    false. *)
Definition or_else (x : option string) (y : string) : string :=
  match x with
  | Some (String c s) => String c s
  | Some EmptyString | None => y
  end.

(** The five calls that write a whole response with a body. *)
Definition send_body (status : Z) (ctype : string) (content : bytes)
    : Eff unit :=
  emit (SendResponse status);;
  emit (SendHeader "Content-Type" ctype);;
  emit (SendHeader "Content-Length" (py_str (length content)));;
  emit EndHeaders;;
  emit (WfileWrite content).

(** [_send_html_file] (l.109-119) and [_send_404] (l.131-145) call each
    other.  Their bodies come first, each with the other method as a
    parameter. *)

(** The body of [_send_html_file]; [send_404] is [self._send_404()]. *)
Definition send_html_file_body (send_404 : Eff unit) (path : Path)
    (status : Z) : Eff unit :=
  (* if not path.exists() or not path.is_file(): *)
  e ← call (exists_ env path);
  missing ← (if negb e then mret true
             else f ← call (is_file env path); mret (negb f));
  if (missing : bool) then send_404
  else
    emit (ReadBytes path);;
    content ← call (read_bytes env path);
    send_body status "text/html; charset=utf-8" content.

(** The body of [_send_404]; [send_html_file] is
    [self._send_html_file].  The [try] block yields [true] when it
    returned. *)
Definition send_404_body (send_html_file : Path → Z → Eff unit)
    : Eff unit :=
  returned ← try_except
    (let error_page := joinpath env (TEMPLATES_DIR env) "error.html" in
     e ← call (exists_ env error_page);
     if (e : bool)
     then send_html_file error_page NOT_FOUND;; mret true
     else mret false)
    (λ exc,
       emit (Stderr ("[HTTP] 404 page failed, fallback to text: "
                       +:+ exc_str exc +:+ LF));;
       mret false);
  if (returned : bool) then mret ()
  else
    let msg := bytes_lit "404 Not Found" in
    send_body NOT_FOUND "text/plain; charset=utf-8" msg.

(** The two methods.  [depth] is the number of frames the interpreter
    still allows: entering a method takes one, and a call with none
    left raises [RecursionError].  Frames of library calls are not
    counted, so the call that meets the limit, and with it the text of
    the exception, is the model's own; the text is a field of [Env]. *)
Fixpoint _send_html_file (depth : nat) (path : Path) (status : Z)
    : Eff unit :=
  match depth with
  | O => raise (recursion_error env)
  | S d => send_html_file_body (_send_404 d) path status
  end
with _send_404 (depth : nat) : Eff unit :=
  match depth with
  | O => raise (recursion_error env)
  | S d => send_404_body (_send_html_file d)
  end.

(** [_send_static_file] (l.121-129). *)
Definition _send_static_file (depth : nat) (path : Path) (status : Z)
    : Eff unit :=
  match depth with
  | O => raise (recursion_error env)
  | S _ =>
      emit (ReadBytes path);;
      content ← call (read_bytes env path);
      let '(mime, _) := guess_type env (Path_str env path) in
      send_body status (or_else mime "application/octet-stream") content
  end.

(** The body of the [try] block of [do_GET] (l.63-83). *)
Definition do_GET_routes (d : nat) (route : string) : Eff unit :=
  if String.eqb route "/" || String.eqb route "/index.html" then
    _send_html_file d (joinpath env (TEMPLATES_DIR env) "index.html") OK
  else if String.eqb route "/message" || String.eqb route "/message.html" then
    _send_html_file d (joinpath env (TEMPLATES_DIR env) "message.html") OK
  else if String.eqb route "/favicon.ico" then
    let icon := joinpath env (STATIC_DIR env) "favicon.ico" in
    e ← call (exists_ env icon);
    if (e : bool) then _send_static_file d icon OK else _send_404 d
  else if startswith route "/static/" then
    let rel := slice_from (String.length "/static/") route in
    target ← call (resolve env (joinpath env (STATIC_DIR env) rel));
    (* if not _is_under(target, STATIC_DIR) or not target.is_file(): *)
    reject ← (if negb (_is_under target (STATIC_DIR env)) then mret true
              else f ← call (is_file env target); mret (negb f));
    if (reject : bool) then _send_404 d
    else _send_static_file d target OK
  else
    _send_404 d.

(** [do_GET] (l.58-85). *)
Definition do_GET (depth : nat) (self : Handler) : Eff unit :=
  match depth with
  | O => raise (recursion_error env)
  | S d =>
      url ← call (urlparse env (path self));
      let route := urllib.path url in
      try_except (do_GET_routes d route) (λ _, _send_404 d)
  end.

(** [do_POST] (l.87-105). *)
Definition do_POST (depth : nat) (self : Handler) : Eff unit :=
  match depth with
  | O => raise (recursion_error env)
  | S d =>
      if negb (String.eqb (path self) "/submit") then _send_404 d
      else
        length ← call (py_int (default "0" (headers self "Content-Length")));
        body ← call (rfile_read (enough_memory env) (rfile self) length);
        try_except_cls OSError
          (sock (socket_socket env);;
           emit (Sendto body (SOCKET_HOST, SOCKET_PORT));;
           sock (sendto env body (SOCKET_HOST, SOCKET_PORT));;
           mret ())
          (λ exc,
             emit (Stderr ("[HTTP] UDP forward failed: "
                             +:+ exc_str exc +:+ LF)));;
        emit (SendResponse SEE_OTHER);;
        emit (SendHeader "Location" "/message.html?status=ok");;
        emit EndHeaders
  end.

End handler.

(** ** What a trace shows *)

Definition is_wire (e : event) : bool :=
  match e with
  | SendResponse _ | SendHeader _ _ | EndHeaders | WfileWrite _ => true
  | ReadBytes _ | Stderr _ | Sendto _ _ => false
  end.

(** The calls of a trace that write to the connection. *)
Fixpoint wire (t : list event) : list event :=
  match t with
  | [] => []
  | e :: t' => if is_wire e then e :: wire t' else wire t'
  end.

(** The files a trace opened. *)
Fixpoint opened (t : list event) : list Path :=
  match t with
  | [] => []
  | ReadBytes p :: t' => p :: opened t'
  | _ :: t' => opened t'
  end.

(** The datagrams a trace handed to [sendto]. *)
Fixpoint datagrams (t : list event) : list (bytes * (string * Z)) :=
  match t with
  | [] => []
  | Sendto body addr :: t' => (body, addr) :: datagrams t'
  | _ :: t' => datagrams t'
  end.

(** One complete response with a body, as [send_body] writes it. *)
Definition response (status : Z) (ctype : string) (content : bytes)
    : list event :=
  [ SendResponse status;
    SendHeader "Content-Type" ctype;
    SendHeader "Content-Length" (py_str (length content));
    EndHeaders;
    WfileWrite content ].

(** The content type of the HTML pages. *)
Definition html : string := "text/html; charset=utf-8".

(** The plain-text fallback of [_send_404]. *)
Definition plain_404 : list event :=
  response NOT_FOUND "text/plain; charset=utf-8" (bytes_lit "404 Not Found").

(** The redirect of [do_POST]. *)
Definition redirect : list event :=
  [ SendResponse SEE_OTHER;
    SendHeader "Location" "/message.html?status=ok";
    EndHeaders ].

(** The line [_send_404] writes when its [try] block raised. *)
Definition fallback_log (e : exc) : event :=
  Stderr ("[HTTP] 404 page failed, fallback to text: " +:+ exc_str e +:+ LF).

(** The line [do_POST] writes when the datagram could not be sent. *)
Definition forward_log (s : string) : event :=
  Stderr ("[HTTP] UDP forward failed: " +:+ s +:+ LF).


Definition error_page (env : Env) : Path :=
  joinpath env (TEMPLATES_DIR env) "error.html".


(** A 404 response: the error page or the plain text. *)
Definition is_404 (w : list event) : Prop :=
  w = plain_404 ∨ ∃ c, w = response NOT_FOUND html c.

(** What every run of the not-found behaviour satisfies: when it
    returns it has written one 404 response, when it raises it has
    written nothing, and it opens no file but the error page. *)
Definition not_found_run (env : Env) (m : Eff unit) : Prop :=
  match m with
  | (Ok _, t) => is_404 (wire t) ∧ Forall (eq (error_page env)) (opened t)
  | (Raise _, t) => wire t = [] ∧ Forall (eq (error_page env)) (opened t)
  end.

(** ** The route table of the specification *)

Definition named_routes : list string :=
  ["/"; "/index.html"; "/message"; "/message.html"; "/favicon.ico"].

(** [p] is [root] or lies below it. *)
Definition under (root p : Path) : Prop := ∃ rest, p = root ++ rest.

(** A route under the static mount that resolves to a regular file under
    the static root. *)
Definition static_file (env : Env) (route : string) : Prop :=
  ∃ rel target,
    route = "/static/" +:+ rel
    ∧ resolve env (joinpath env (STATIC_DIR env) rel) = Ok target
    ∧ under (STATIC_DIR env) target
    ∧ is_file env target = Ok true.

Definition explicit_route (env : Env) (route : string) : Prop :=
  route ∈ named_routes ∨ static_file env route.

(** [p] is the error page or under the static root. *)
Definition inside (env : Env) (p : Path) : Prop :=
  p = error_page env ∨ under (STATIC_DIR env) p.

(** The content type [_send_static_file] sends for [p]. *)
Definition guessed (env : Env) (p : Path) : string :=
  or_else (fst (guess_type env (Path_str env p))) "application/octet-stream".

(** The routes of the table that serve a file: the route, the file and
    the content type. *)
Inductive route_file (env : Env) : string → Path → string → Prop :=
| route_home route :
    route ∈ ["/"; "/index.html"] →
    route_file env route (joinpath env (TEMPLATES_DIR env) "index.html") html
| route_message route :
    route ∈ ["/message"; "/message.html"] →
    route_file env route (joinpath env (TEMPLATES_DIR env) "message.html") html
| route_favicon :
    let icon := joinpath env (STATIC_DIR env) "favicon.ico" in
    route_file env "/favicon.ico" icon (guessed env icon)
| route_static rel target :
    resolve env (joinpath env (STATIC_DIR env) rel) = Ok target →
    under (STATIC_DIR env) target →
    route_file env ("/static/" +:+ rel) target (guessed env target).

(** The forwarding of [body] fails with the text [s]. *)
Definition send_fails (env : Env) (body : bytes) (s : string) : Prop :=
  socket_socket env = SockError s
  ∨ socket_socket env = SockOk ()
    ∧ sendto env body (SOCKET_HOST, SOCKET_PORT) = SockError s.

(** ** The UDP socket server: text *)

(** A decoded [str]: its Unicode code points. *)
Definition ustr := list N.

(** A [str] literal. *)
Definition str_lit (s : string) : ustr := N_of_ascii <$> list_ascii_of_string s.

(** [c.isspace()], the characters [str.strip()] removes. *)
Definition isspace (c : N) : bool :=
  ((9 <=? c) && (c <=? 13) || (28 <=? c) && (c <=? 32)
   || (c =? 133) || (c =? 160) || (c =? 5760)
   || (8192 <=? c) && (c <=? 8202)
   || (c =? 8232) || (c =? 8233) || (c =? 8239) || (c =? 8287)
   || (c =? 12288))%N.

Fixpoint lstrip (s : ustr) : ustr :=
  match s with
  | c :: s' => if isspace c then lstrip s' else s
  | [] => []
  end.

Definition rstrip (s : ustr) : ustr := rev (lstrip (rev s)).

(** [s.strip()]. *)
Definition strip (s : ustr) : ustr := rstrip (lstrip s).

(** The truth value of a [str]. *)
Definition truthy (s : ustr) : bool :=
  match s with [] => false | _ :: _ => true end.

(** [x < y] on [str]: code point by code point. *)
Fixpoint str_ltb (x y : ustr) : bool :=
  match x, y with
  | _, [] => false
  | [], _ :: _ => true
  | c :: x', d :: y' =>
      if (c <? d)%N then true
      else if (c =? d)%N then str_ltb x' y' else false
  end.

Definition str_lt (x y : ustr) : Prop := str_ltb x y = true.

(** ** [datetime] *)

Record datetime := {
  year : N; month : N; day : N;
  hour : N; minute : N; second : N; microsecond : N }.

(** The decimal digit [d] as a character. *)
Definition digit (d : N) : N := (48 + d)%N.

(** [n] in [w] decimal digits, zero-padded, as [%m], [%d], [%H], [%M],
    [%S] (two digits) and [%f] (six) write it. *)
Fixpoint zfill (w : nat) (n : N) : ustr :=
  match w with
  | O => []
  | S w' => zfill w' (n / 10)%N ++ [digit (n mod 10)%N]
  end.

(** [%Y]: the year in decimal as the C library of a Linux system writes
    it, without padding; the years of a [datetime] are 1 to 9999, and
    those below 1000 take fewer than four characters. *)
Definition format_Y (y : N) : ustr :=
  if (y <? 10)%N then zfill 1 y
  else if (y <? 100)%N then zfill 2 y
  else if (y <? 1000)%N then zfill 3 y
  else zfill 4 y.

(** [dt.strftime("%Y-%m-%d %H:%M:%S.%f")]. *)
Definition strftime (dt : datetime) : ustr :=
  format_Y (year dt) ++ str_lit "-" ++ zfill 2 (month dt) ++ str_lit "-"
  ++ zfill 2 (day dt) ++ str_lit " " ++ zfill 2 (hour dt) ++ str_lit ":"
  ++ zfill 2 (minute dt) ++ str_lit ":" ++ zfill 2 (second dt)
  ++ str_lit "." ++ zfill 6 (microsecond dt).

(** The ranges of the fields of a [datetime], for the years [%Y] writes
    in four digits. *)
Definition valid_datetime (dt : datetime) : Prop :=
  ((1000 ≤ year dt ≤ 9999) ∧ (1 ≤ month dt ≤ 12) ∧ (1 ≤ day dt ≤ 31)
   ∧ hour dt < 24 ∧ minute dt < 60 ∧ second dt < 60
   ∧ microsecond dt < 1000000)%N.

(** [x < y] on naive [datetime]s. *)
Definition dt_lt (x y : datetime) : Prop :=
  (year x < year y ∨ year x = year y ∧
   (month x < month y ∨ month x = month y ∧
    (day x < day y ∨ day x = day y ∧
     (hour x < hour y ∨ hour x = hour y ∧
      (minute x < minute y ∨ minute x = minute y ∧
       (second x < second y ∨ second x = second y ∧
        microsecond x < microsecond y))))))%N.

(** Each element is below the next one. *)
Fixpoint increasing {A} (lt : A → A → Prop) (l : list A) : Prop :=
  match l with
  | x :: (y :: _) as l' => lt x y ∧ increasing lt l'
  | _ => True
  end.

(** A character class of a format. *)
Inductive char_class := Digit | Lit (c : N).

Definition in_class (k : char_class) (c : N) : bool :=
  match k with
  | Digit => ((48 <=? c) && (c <=? 57))%N
  | Lit l => (c =? l)%N
  end.

Fixpoint matches (pat : list char_class) (s : ustr) : bool :=
  match pat, s with
  | [], [] => true
  | k :: pat', c :: s' => in_class k c && matches pat' s'
  | _, _ => false
  end.

(** [YYYY-MM-DD HH:MM:SS.ffffff]. *)
Definition date_format : list char_class :=
  repeat Digit 4 ++ [Lit 45] ++ repeat Digit 2 ++ [Lit 45] ++ repeat Digit 2
  ++ [Lit 32] ++ repeat Digit 2 ++ [Lit 58] ++ repeat Digit 2 ++ [Lit 58]
  ++ repeat Digit 2 ++ [Lit 46] ++ repeat Digit 6.

(** ** Documents, the log and the world of the server *)

Record Doc := { date : ustr; username : ustr; message : ustr }.

(** The lines the server prints. *)
Inductive log_line :=
| Connected                        (* "Connected to MongoDB: ..." *)
| ConnectionFailed (e : exc)       (* "Mongo connection failed: ..." *)
| InitError (e : exc)              (* "Mongo init error: ..." *)
| Listening                        (* "UDP listening on ..." *)
| Received (addr : string * Z) (decoded : ustr)
| Saved (doc : Doc)
| InsertError (e : exc)            (* "Mongo insert error: ..." *)
| Skipped.                  (* "Skipped insert: empty username or message" *)

(** The library functions of the loop:
    [data.decode("utf-8", errors="ignore")] and
    [urllib.parse.parse_qs(text, keep_blank_values=True)]. *)
Record Codec := {
  decode_utf8 : bytes → ustr;
  parse_qs : ustr → gmap ustr (list ustr);
}.

(** One turn of the loop as the outside determines it: the datagram that
    arrives and its sender, the clock when [datetime.now()] is called,
    and the exception [insert_one] raises, if it is called and fails.
    A run is the list of its arrivals: [recvfrom] returns for each of
    them, and [print] always returns. *)
Record Arrival := {
  payload : bytes;
  sender : string * Z;
  now : datetime;
  insert_error : option exc;
}.

(** The collection and the printed lines. *)
Record Server := { collection : list Doc; stdout : list log_line }.

(** The buffer size of [sock.recvfrom(65535)]. *)
Definition recv_bufsize : nat := Z.to_nat 65535.

(** ** The server monad: state and exceptions *)

Definition Srv (A : Type) : Type := Server → result A * Server.

Global Instance Srv_ret : MRet Srv := λ A a st, (Ok a, st).

Global Instance Srv_bind : MBind Srv := λ A B f m st,
  match m st with
  | (Ok a, st') => f a st'
  | (Raise e, st') => (Raise e, st')
  end.

(** [print(line)]. *)
Definition print (l : log_line) : Srv unit := λ st,
  (Ok (), {| collection := collection st; stdout := stdout st ++ [l] |}).

(** A call that returns or raises and leaves the state as it is. *)
Definition lift {A} (r : result A) : Srv A := λ st, (r, st).

(** [try: body / except Exception as e: handler(e)]. *)
Definition try_Srv {A} (body : Srv A) (handler : exc → Srv A) : Srv A :=
  λ st,
  match body st with
  | (Ok a, st') => (Ok a, st')
  | (Raise e, st') => handler e st'
  end.

(** [mongo_coll.insert_one(doc)]: the document is appended, or the call
    raises and the collection stays as it is. *)
Definition insert_one (failure : option exc) (doc : Doc) : Srv unit := λ st,
  match failure with
  | None => (Ok (), {| collection := collection st ++ [doc];
                       stdout := stdout st |})
  | Some e => (Raise e, st)
  end.

(** [l[0]]. *)
Definition index0 {A} (l : list A) : result A :=
  match l with
  | x :: _ => Ok x
  | [] => Raise (Exc IndexError "list index out of range")
  end.

(** [parsed.get(key, [""])[0].strip()]. *)
Definition field (parsed : gmap ustr (list ustr)) (key : ustr)
    : result ustr :=
  match index0 (default [str_lit ""] (parsed !! key)) with
  | Ok v => Ok (strip v)
  | Raise e => Raise e
  end.

(** ** [run_socket_server] *)

Section socket_server.
Context (codec : Codec).

(** The body of the [while True] loop (l.206-229); [uname] and [msg]
    are the local variables [username] and [message]. *)
Definition loop_body (a : Arrival) : Srv unit :=
  let data := take recv_bufsize (payload a) in
  let decoded := decode_utf8 codec data in
  print (Received (sender a) decoded);;
  let parsed := parse_qs codec decoded in
  uname ← lift (field parsed (str_lit "username"));
  msg ← lift (field parsed (str_lit "message"));
  let doc := {| date := strftime (now a);
                username := uname;
                message := msg |} in
  if truthy (username doc) && truthy (message doc) then
    try_Srv (insert_one (insert_error a) doc;; print (Saved doc))
            (λ exc, print (InsertError exc))
  else
    print Skipped.

(** The [while True] loop over the arrivals of a run: an exception that
    leaves the body ends the loop and the server. *)
Fixpoint receive_loop (arrivals : list Arrival) : Srv unit :=
  match arrivals with
  | [] => mret ()
  | a :: rest => loop_body a;; receive_loop rest
  end.

(** [run_socket_server] (l.181-229): [ping] is the outcome of creating
    the client and pinging the server, [bind] that of creating and
    binding the socket. *)
Definition run_socket_server (ping : result unit) (bind : sock_result unit)
    (arrivals : list Arrival) : Srv unit :=
  connected ← try_Srv
    (lift ping;; print Connected;; mret true)
    (λ exc,
       match exc_cls exc with
       | ConnectionFailure => print (ConnectionFailed exc)
       | _ => print (InitError exc)
       end;;
       mret false);
  if (connected : bool) then
    lift (match bind with
          | SockOk _ => Ok ()
          | SockError s => Raise (Exc OSError s)
          end);;
    print Listening;;
    receive_loop arrivals
  else mret ().

End socket_server.

(** ** Form payloads *)

(** The form an arrival decodes to, and the line printed for it. *)
Definition form (codec : Codec) (a : Arrival) : gmap ustr (list ustr) :=
  parse_qs codec (decode_utf8 codec (take recv_bufsize (payload a))).

Definition received (codec : Codec) (a : Arrival) : log_line :=
  Received (sender a) (decode_utf8 codec (take recv_bufsize (payload a))).

(** The field [key] is empty after trimming: it is absent, or its first
    value trims to the empty string. *)
Definition blank (parsed : gmap ustr (list ustr)) (key : ustr) : Prop :=
  parsed !! key = None
  ∨ ∃ v vs, parsed !! key = Some (v :: vs) ∧ strip v = [].

(** The field [key] trims to the non-empty [text]. *)
Definition filled (parsed : gmap ustr (list ustr)) (key text : ustr)
    : Prop :=
  ∃ v vs, parsed !! key = Some (v :: vs) ∧ strip v = text ∧ text ≠ [].

(** Both fields are non-empty after trimming. *)
Definition complete (codec : Codec) (a : Arrival) : Prop :=
  ∃ un msg, filled (form codec a) (str_lit "username") un
            ∧ filled (form codec a) (str_lit "message") msg.

(** [doc] is the record of the arrival [a]. *)
Definition stored (codec : Codec) (a : Arrival) (doc : Doc) : Prop :=
  date doc = strftime (now a)
  ∧ filled (form codec a) (str_lit "username") (username doc)
  ∧ filled (form codec a) (str_lit "message") (message doc).

(** The server after it printed [lines]. *)
Definition log (st : Server) (lines : list log_line) : Server :=
  {| collection := collection st; stdout := stdout st ++ lines |}.

(** The server before its first datagram. *)
Definition fresh : Server := {| collection := []; stdout := [] |}.

(** ** A sample installation *)

(** A small installation without symbolic links, on which the handlers
    can be run. *)
Module Sample.

Definition TEMPLATES : Path := ["/"; "srv"; "app"; "templates"].
Definition STATIC : Path := ["/"; "srv"; "app"; "static"].

Definition files : list (Path * bytes) :=
  [ (TEMPLATES ++ ["index.html"], bytes_lit "<h1>home</h1>");
    (TEMPLATES ++ ["message.html"], bytes_lit "<form></form>");
    (TEMPLATES ++ ["error.html"], bytes_lit "<h1>not found</h1>");
    (STATIC ++ ["style.css"], bytes_lit "body{}");
    (STATIC ++ ["blob"], bytes_lit "xyz");
    (["/"; "srv"; "app"; "main.py"], bytes_lit "import os") ].

Definition dirs : list Path :=
  [ ["/"]; ["/"; "srv"]; ["/"; "srv"; "app"]; TEMPLATES; STATIC ].

Fixpoint lookup_file (p : Path) (fs : list (Path * bytes)) : option bytes :=
  match fs with
  | [] => None
  | (q, c) :: fs' => if bool_decide (p = q) then Some c else lookup_file p fs'
  end.

(** [s.split("/")]. *)
Fixpoint split_slash (s : string) : list string :=
  match s with
  | EmptyString => [EmptyString]
  | String c s' =>
      let r := split_slash s' in
      if Ascii.eqb c "/" then EmptyString :: r
      else match r with
           | x :: xs => String c x :: xs
           | [] => [String c EmptyString]
           end
  end.

Definition is_component (s : string) : bool :=
  negb (String.eqb s "") && negb (String.eqb s ".").

(** [base / name]: an absolute [name] replaces [base]; empty and [.]
    components are dropped. *)
Definition join (base : Path) (name : string) : Path :=
  let parts := List.filter is_component (split_slash name) in
  if startswith name "/" then "/" :: parts else base ++ parts.

(** [p.resolve()] where nothing is a symbolic link: [..] removes the
    component before it, and stays at the root.  [acc] is reversed. *)
Fixpoint normalize (acc : list string) (parts : list string) : Path :=
  match parts with
  | [] => rev acc
  | x :: ps =>
      if String.eqb x ".." then
        normalize (match acc with
                   | [] => []
                   | [root] => [root]
                   | _ :: acc' => acc'
                   end) ps
      else normalize (x :: acc) ps
  end.

Definition endswith (s suffix : string) : bool :=
  String.prefix (String.rev suffix) (String.rev s).

Definition guess (s : string) : option string * option string :=
  if endswith s ".css" then (Some "text/css", None)
  else if endswith s ".html" then (Some "text/html", None)
  else if endswith s ".py" then (Some "text/x-python", None)
  else (None, None).

Fixpoint str_join (parts : list string) : string :=
  match parts with
  | [] => ""
  | [x] => x
  | x :: xs => x +:+ "/" +:+ str_join xs
  end.

Definition to_str (p : Path) : string :=
  match p with
  | "/" :: rest => "/" +:+ str_join rest
  | _ => str_join p
  end.

(** The text before the first character that satisfies [stop], and the
    text from that character on. *)
Fixpoint break (stop : ascii → bool) (s : string) : string * string :=
  match s with
  | EmptyString => (EmptyString, EmptyString)
  | String c s' =>
      if stop c then (EmptyString, s)
      else let '(x, y) := break stop s' in (String c x, y)
  end.

(** [urlparse] on a request target in origin form: the fragment starts
    at the first [#], the query at the first [?] before it. *)
Definition split_target (s : string) : result urllib.ParseResult :=
  let '(before, frag) := break (Ascii.eqb "#") s in
  let '(p, q) := break (Ascii.eqb "?") before in
  Ok {| urllib.scheme := ""; urllib.netloc := ""; urllib.path := p;
        urllib.params := ""; urllib.query := slice_from 1 q;
        urllib.fragment := slice_from 1 frag |}.

(** The memory a request may take on the sample machine. *)
Definition gibibyte : Z := 2 ^ 30.

Definition env : Env := {|
  TEMPLATES_DIR := TEMPLATES;
  STATIC_DIR := STATIC;
  urlparse := split_target;
  joinpath := join;
  resolve := λ p, Ok (normalize [] p);
  exists_ := λ p, Ok (bool_decide (p ∈ dirs)
                      || bool_decide (is_Some (lookup_file p files)));
  is_file := λ p, Ok (bool_decide (is_Some (lookup_file p files)));
  read_bytes := λ p,
    match lookup_file p files with
    | Some c => Ok c
    | None => Raise (Exc OSError "No such file or directory")
    end;
  Path_str := to_str;
  guess_type := guess;
  socket_socket := SockOk ();
  sendto := λ body _, SockOk (Z.of_nat (length body));
  enough_memory := λ n, n <=? gibibyte;
  recursion_text :=
    "maximum recursion depth exceeded while calling a Python object";
|}.

(** The same installation with the network down. *)
Definition env_unreachable : Env := {|
  TEMPLATES_DIR := TEMPLATES;
  STATIC_DIR := STATIC;
  urlparse := split_target;
  joinpath := join;
  resolve := resolve env;
  exists_ := exists_ env;
  is_file := is_file env;
  read_bytes := read_bytes env;
  Path_str := to_str;
  guess_type := guess;
  socket_socket := SockOk ();
  sendto := λ _ _, SockError "Network is unreachable";
  enough_memory := enough_memory env;
  recursion_text := recursion_text env;
|}.

(** The parse of a target that is only a path. *)
Definition bare (p : string) : urllib.ParseResult :=
  {| urllib.scheme := ""; urllib.netloc := ""; urllib.path := p;
     urllib.params := ""; urllib.query := ""; urllib.fragment := "" |}.

Definition GET (target : string) : Handler :=
  {| path := target; headers := λ _, None; rfile := [] |}.

Definition POST (target : string) (len : option string) (body : string)
    : Handler :=
  {| path := target;
     headers := λ name, if String.eqb name "Content-Length" then len
                        else None;
     rfile := bytes_lit body |}.

End Sample.

(** ** A sample codec and sample arrivals *)

Module SampleCodec.

(** ASCII bytes decode to themselves; the sample payloads hold no
    others. *)
Definition decode_ascii (data : bytes) : ustr :=
  (λ c, N.of_nat (Byte.to_nat c))
    <$> List.filter (λ c, Byte.to_nat c <? 128)%nat data.

(** [text.split(sep)]. *)
Fixpoint split (sep : N) (s : ustr) : list ustr :=
  match s with
  | [] => [[]]
  | c :: s' =>
      let r := split sep s' in
      if (c =? sep)%N then [] :: r
      else match r with
           | x :: xs => (c :: x) :: xs
           | [] => [[c]]
           end
  end.

(** [name=value] at the first [=]. *)
Fixpoint pair_of (s : ustr) : ustr * ustr :=
  match s with
  | [] => ([], [])
  | c :: s' =>
      if (c =? 61)%N then ([], s')
      else let '(k, v) := pair_of s' in (c :: k, v)
  end.

(** [parse_qs] on payloads without [%] and [+]: the fields are
    separated by [&], and every value of a name is kept, in order. *)
Definition parse_fields (s : ustr) : gmap ustr (list ustr) :=
  foldl (λ (m : gmap ustr (list ustr)) '(k, v),
           <[k := default [] (m !! k) ++ [v]]> m)
        ∅
        (pair_of <$> List.filter truthy (split 38 s)).

Definition codec : Codec :=
  {| decode_utf8 := decode_ascii; parse_qs := parse_fields |}.

Definition client : string * Z := ("10.0.0.7", 40000).

(** Half a second before three at night, a reading taken after the
    clock was set back by an hour at three, and a later one. *)
Definition before_three : datetime :=
  {| year := 2025; month := 10; day := 26; hour := 2; minute := 59;
     second := 59; microsecond := 500000 |}%N.

Definition set_back : datetime :=
  {| year := 2025; month := 10; day := 26; hour := 2; minute := 0;
     second := 0; microsecond := 100000 |}%N.

Definition later : datetime :=
  {| year := 2025; month := 10; day := 26; hour := 4; minute := 0;
     second := 0; microsecond := 0 |}%N.

Definition alice (t : datetime) (failure : option exc) : Arrival :=
  {| payload := bytes_lit "username=alice&message=hi"; sender := client;
     now := t; insert_error := failure |}.

Definition bob (t : datetime) : Arrival :=
  {| payload := bytes_lit "username=bob&message=hello"; sender := client;
     now := t; insert_error := None |}.

Definition nameless : Arrival :=
  {| payload := bytes_lit "username=&message=hi"; sender := client;
     now := before_three; insert_error := None |}.

Definition closed : exc := Exc PyMongoError "connection closed".

End SampleCodec.

(** ** The files the handlers may open *)

Definition index_page (env : Env) : Path :=
  joinpath env (TEMPLATES_DIR env) "index.html".

Definition message_page (env : Env) : Path :=
  joinpath env (TEMPLATES_DIR env) "message.html".

Definition favicon (env : Env) : Path :=
  joinpath env (STATIC_DIR env) "favicon.ico".

(** [p] is one of the three templates, the favicon, or a path under the
    static root. *)
Definition allowed (env : Env) (p : Path) : Prop :=
  p ∈ [index_page env; message_page env; error_page env; favicon env]
  ∨ under (STATIC_DIR env) p.

(** How the [try] block of [do_GET] can end for [route]: it has served
    the file of the route with status 200, it has written a 404
    response, or it has raised before anything was written. *)
Inductive routes_outcome (env : Env) (route : string) : Eff unit → Prop :=
| outcome_served p ctype c :
    route_file env route p ctype → read_bytes env p = Ok c →
    routes_outcome env route (Ok (), ReadBytes p :: response OK ctype c)
| outcome_not_found t :
    is_404 (wire t) → Forall (allowed env) (opened t) →
    routes_outcome env route (Ok (), t)
| outcome_raised e t :
    wire t = [] → Forall (allowed env) (opened t) →
    routes_outcome env route (Raise e, t).

(** ** Two more sample installations *)

Module Edge.

(** A [urlparse] that rejects some targets: those in absolute form
    whose host opens a bracket that is never closed.  Other targets are
    split as in [Sample]. *)
Definition has (c : ascii) (s : string) : bool :=
  existsb (Ascii.eqb c) (list_ascii_of_string s).

Definition strict_target (s : string) : result urllib.ParseResult :=
  if startswith s "http://[" && negb (has "]" s)
  then Raise (Exc ValueError "Invalid IPv6 URL")
  else Sample.split_target s.

Definition env_strict : Env := {|
  TEMPLATES_DIR := Sample.TEMPLATES;
  STATIC_DIR := Sample.STATIC;
  urlparse := strict_target;
  joinpath := Sample.join;
  resolve := resolve Sample.env;
  exists_ := exists_ Sample.env;
  is_file := is_file Sample.env;
  read_bytes := read_bytes Sample.env;
  Path_str := Sample.to_str;
  guess_type := Sample.guess;
  socket_socket := SockOk ();
  sendto := sendto Sample.env;
  enough_memory := enough_memory Sample.env;
  recursion_text := recursion_text Sample.env;
|}.



End Edge.

(** A record as the guard of line 222 lets it through: both fields
    non-empty and trimmed, the date in its format. *)
Definition well_formed_doc (doc : Doc) : Prop :=
  username doc ≠ [] ∧ message doc ≠ []
  ∧ strip (username doc) = username doc
  ∧ strip (message doc) = message doc
  ∧ matches date_format (date doc) = true.

(** * Part II: facts *)

(** ** Runs on the sample installation *)

Example py_int_zero : py_int "0" = Ok 0.
Proof. reflexivity. Qed.

Example py_int_padded : py_int " +1_000 " = Ok 1000.
Proof. vm_compute. reflexivity. Qed.

Example py_int_letters : py_int "12a" = Raise invalid_literal.
Proof. vm_compute. reflexivity. Qed.

Example GET_home :
  do_GET Sample.env 10 (Sample.GET "/") =
  (Ok (), ReadBytes (Sample.TEMPLATES ++ ["index.html"])
          :: response OK html (bytes_lit "<h1>home</h1>")).
Proof. vm_compute. reflexivity. Qed.

Example GET_css :
  do_GET Sample.env 10 (Sample.GET "/static/style.css?v=2") =
  (Ok (), ReadBytes (Sample.STATIC ++ ["style.css"])
          :: response OK "text/css" (bytes_lit "body{}")).
Proof. vm_compute. reflexivity. Qed.

Example GET_blob :
  do_GET Sample.env 10 (Sample.GET "/static/blob") =
  (Ok (), ReadBytes (Sample.STATIC ++ ["blob"])
          :: response OK "application/octet-stream" (bytes_lit "xyz")).
Proof. vm_compute. reflexivity. Qed.

Example GET_traversal :
  do_GET Sample.env 10 (Sample.GET "/static/../main.py") =
  (Ok (), ReadBytes (Sample.TEMPLATES ++ ["error.html"])
          :: response NOT_FOUND html (bytes_lit "<h1>not found</h1>")).
Proof. vm_compute. reflexivity. Qed.

Example POST_unreachable :
  do_POST Sample.env_unreachable 10
    (Sample.POST "/submit" (Some "5") "username=a&message=b") =
  (Ok (), Sendto (bytes_lit "usern") (SOCKET_HOST, SOCKET_PORT)
          :: forward_log "Network is unreachable"
          :: redirect).
Proof. vm_compute. reflexivity. Qed.

(** A [Content-Length] that is not a number: [int] raises before
    anything is sent. *)
Example POST_bad_length :
  do_POST Sample.env 10 (Sample.POST "/submit" (Some "abc") "username=a") =
  (Raise invalid_literal, []).
Proof. vm_compute. reflexivity. Qed.

(** A [Content-Length] the sample machine has no memory for: [read]
    raises [MemoryError] before anything is sent. *)
Example POST_too_long :
  do_POST Sample.env 10
    (Sample.POST "/submit" (Some "1000000000000") "username=a") =
  (Raise (Exc MemoryError ""), []).
Proof. vm_compute. reflexivity. Qed.

(** A [Content-Length] of [sys.maxsize]: no [bytes] object is that
    long. *)
Example POST_maxsize :
  do_POST Sample.env 10
    (Sample.POST "/submit" (Some "9223372036854775807") "username=a") =
  (Raise (Exc OverflowError "byte string is too large"), []).
Proof. vm_compute. reflexivity. Qed.

(** A clock reading in the year 999: the timestamp is one character
    short of the format. *)
Example strftime_year_999 :
  let dt := {| year := 999; month := 1; day := 1; hour := 0; minute := 0;
               second := 0; microsecond := 0 |}%N in
  strftime dt = str_lit "999-01-01 00:00:00.000000"
  ∧ matches date_format (strftime dt) = false.
Proof. split; vm_compute; reflexivity. Qed.

Example loop_alice :
  loop_body SampleCodec.codec
    (SampleCodec.alice SampleCodec.before_three None) fresh =
  let doc := {| date := str_lit "2025-10-26 02:59:59.500000";
                username := str_lit "alice"; message := str_lit "hi" |} in
  (Ok (), {| collection := [doc];
             stdout := [Received SampleCodec.client
                          (str_lit "username=alice&message=hi");
                        Saved doc] |}).
Proof. vm_compute. reflexivity. Qed.

Example loop_nameless :
  loop_body SampleCodec.codec SampleCodec.nameless fresh =
  (Ok (), {| collection := [];
             stdout := [Received SampleCodec.client
                          (str_lit "username=&message=hi");
                        Skipped] |}).
Proof. vm_compute. reflexivity. Qed.

(** ** The handler monad *)

Lemma bind_ok {A B} (a : A) (f : A → Eff B) : (Ok a, []) ≫= f = f a.
Proof. unfold mbind, Eff_bind. destruct (f a). reflexivity. Qed.

Lemma try_raise_nil {A} e (m : Eff A) :
  try_except (Raise e, []) (λ _, m) = m.
Proof. unfold try_except. by destruct m. Qed.

Lemma wire_app t1 t2 : wire (t1 ++ t2) = wire t1 ++ wire t2.
Proof.
  induction t1 as [|e t1 IH]; simpl; [done|].
  destruct (is_wire e); simpl; by rewrite IH.
Qed.

Lemma opened_app t1 t2 : opened (t1 ++ t2) = opened t1 ++ opened t2.
Proof.
  induction t1 as [|e t1 IH]; simpl; [done|].
  destruct e; simpl; by rewrite IH.
Qed.

(** ** Paths and routes *)

Lemma relative_to_ok child parent rest :
  relative_to child parent = Ok rest ↔ child = parent ++ rest.
Proof.
  revert child. induction parent as [|q parent IH]; intros child; simpl.
  - split; [by intros [= ->] | by intros ->].
  - destruct child as [|c child]; [split; [done | by intros [=]]|].
    destruct (String.eqb_spec c q) as [->|Hne].
    + rewrite IH. split; [by intros -> | by intros [= ->]].
    + split; [done | intros [= -> ->]; done].
Qed.

(** [_is_under] decides containment of the parts. *)
Lemma _is_under_spec child parent :
  _is_under child parent = true ↔ under parent child.
Proof.
  unfold _is_under, under.
  destruct (relative_to child parent) as [rest|e] eqn:Hr.
  - split; [intros _; exists rest; by apply relative_to_ok | done].
  - split; [done|]. intros [rest Hrest].
    apply relative_to_ok in Hrest. congruence.
Qed.

Lemma startswith_slice p s :
  startswith s p = true → s = p +:+ slice_from (String.length p) s.
Proof.
  unfold startswith. revert s. induction p as [|a p IH]; intros s.
  - intros _. reflexivity.
  - destruct s as [|c s]; [done|]. cbn [String.prefix].
    destruct (ascii_dec a c) as [->|]; [|done].
    intros Hp. cbn [String.length slice_from].
    change (String c p +:+ slice_from (String.length p) s)
      with (String c (p +:+ slice_from (String.length p) s)).
    f_equal. by apply IH.
Qed.

Lemma static_route rel :
  startswith ("/static/" +:+ rel) "/static/" = true
  ∧ slice_from (String.length "/static/") ("/static/" +:+ rel) = rel.
Proof.
  unfold startswith. cbv [String.append].
  split; [|reflexivity]. cbn. by destruct rel.
Qed.

Lemma static_route_not_named rel : "/static/" +:+ rel ∉ named_routes.
Proof.
  unfold named_routes. rewrite !not_elem_of_cons. cbv [String.append].
  repeat split; try discriminate. apply not_elem_of_nil.
Qed.

Lemma named_routes_eqb route :
  route ∉ named_routes →
  String.eqb route "/" = false ∧ String.eqb route "/index.html" = false
  ∧ String.eqb route "/message" = false
  ∧ String.eqb route "/message.html" = false
  ∧ String.eqb route "/favicon.ico" = false.
Proof.
  unfold named_routes. rewrite !not_elem_of_cons, !String.eqb_neq. tauto.
Qed.

(** ** The helper methods *)

Section handler_facts.
Context (env : Env).

(** [_send_html_file], case by case. *)
Lemma send_html_file_body_eq k p st :
  send_html_file_body env k p st =
  match exists_ env p with
  | Raise e => (Raise e, [])
  | Ok false => k
  | Ok true =>
      match is_file env p with
      | Raise e => (Raise e, [])
      | Ok false => k
      | Ok true =>
          match read_bytes env p with
          | Raise e => (Raise e, [ReadBytes p])
          | Ok c => (Ok (), ReadBytes p :: response st html c)
          end
      end
  end.
Proof.
  unfold send_html_file_body, call.
  destruct (exists_ env p) as [[]|];
    [|rewrite !bind_ok; simpl; by destruct k|reflexivity].
  rewrite bind_ok. simpl negb. cbv iota.
  destruct (is_file env p) as [[]|]; [| |reflexivity].
  - rewrite !bind_ok. simpl. destruct (read_bytes env p); reflexivity.
  - rewrite !bind_ok. simpl. by destruct k.
Qed.

(** [_send_404], case by case. *)
Lemma send_404_body_eq f :
  send_404_body env f =
  match exists_ env (error_page env) with
  | Raise e => (Ok (), fallback_log e :: plain_404)
  | Ok false => (Ok (), plain_404)
  | Ok true =>
      match f (error_page env) NOT_FOUND with
      | (Ok _, t) => (Ok (), t)
      | (Raise e, t) => (Ok (), t ++ fallback_log e :: plain_404)
      end
  end.
Proof.
  unfold send_404_body, error_page, call. cbv zeta.
  destruct (exists_ env _) as [[]|]; try reflexivity.
  rewrite bind_ok.
  destruct (f _ _) as [[[]|e] t]; simpl.
  - rewrite !app_nil_r. reflexivity.
  - rewrite <- app_assoc. reflexivity.
Qed.

Lemma _send_404_S d :
  _send_404 env (S d) = send_404_body env (_send_html_file env d).
Proof. reflexivity. Qed.

Lemma _send_html_file_S d p st :
  _send_html_file env (S d) p st
  = send_html_file_body env (_send_404 env d) p st.
Proof. reflexivity. Qed.

(** One call of [_send_404], of [_send_html_file]. *)
Ltac step_404 := rewrite _send_404_S, send_404_body_eq.
Ltac step_html := rewrite _send_html_file_S, send_html_file_body_eq.

(** Whatever the depth, the two methods keep [not_found_run]. *)
Lemma not_found_run_both d :
  not_found_run env (_send_404 env d)
  ∧ not_found_run env (_send_html_file env d (error_page env) NOT_FOUND).
Proof.
  induction d as [|d [IH4 IHh]].
  - split; simpl; auto.
  - split.
    + step_404.
      destruct (exists_ env (error_page env)) as [[]|e].
      * destruct (_send_html_file env d (error_page env) NOT_FOUND)
          as [[[]|e] t]; simpl in IHh |- *; [exact IHh|].
        destruct IHh as [Hw Ho]. rewrite wire_app, opened_app, Hw. simpl.
        rewrite app_nil_r. split; [by left | done].
      * simpl. split; [by left | done].
      * simpl. split; [by left | done].
    + step_html.
      destruct (exists_ env (error_page env)) as [[]|e];
        [|exact IH4|simpl; auto].
      destruct (is_file env (error_page env)) as [[]|e'];
        [|exact IH4|simpl; auto].
      destruct (read_bytes env (error_page env)) as [c|e'']; simpl.
      * split; [right; by exists c | by constructor].
      * split; [done | by constructor].
Qed.

(** With a frame left, [_send_404] returns. *)
Lemma send_404_returns d :
  ∃ t, _send_404 env (S d) = (Ok (), t)
       ∧ is_404 (wire t) ∧ Forall (eq (error_page env)) (opened t).
Proof.
  pose proof (proj1 (not_found_run_both (S d))) as Hrun.
  rewrite _send_404_S, send_404_body_eq in *.
  destruct (exists_ env (error_page env)) as [[]|e];
    [destruct (_send_html_file env d (error_page env) NOT_FOUND)
       as [[[]|e] t]|..];
    eexists; (split; [reflexivity|exact Hrun]).
Qed.



Lemma try_send_404 d h :
  try_except (_send_404 env (S d)) h = _send_404 env (S d).
Proof. destruct (send_404_returns d) as (t & -> & _). reflexivity. Qed.



Lemma send_static_file_served d p st c :
  read_bytes env p = Ok c →
  _send_static_file env (S d) p st
  = (Ok (), ReadBytes p :: response st (guessed env p) c).
Proof.
  intros Hr. unfold _send_static_file, guessed, call. rewrite Hr.
  destruct (guess_type env (Path_str env p)) as [mime enc]. reflexivity.
Qed.

End handler_facts.

(** ** [do_GET] and [do_POST] *)

Section request_facts.
Context (env : Env).

Lemma do_GET_eq d self url :
  urlparse env (path self) = Ok url →
  do_GET env (S d) self =
  try_except (do_GET_routes env d (urllib.path url)) (λ _, _send_404 env d).
Proof.
  intros Hu. unfold do_GET, call. rewrite Hu, bind_ok. reflexivity.
Qed.

(** The static branch of [do_GET_routes]. *)
Lemma do_GET_routes_static d rel :
  do_GET_routes env d ("/static/" +:+ rel) =
  match resolve env (joinpath env (STATIC_DIR env) rel) with
  | Raise e => (Raise e, [])
  | Ok target =>
      if _is_under target (STATIC_DIR env) then
        match is_file env target with
        | Raise e => (Raise e, [])
        | Ok true => _send_static_file env d target OK
        | Ok false => _send_404 env d
        end
      else _send_404 env d
  end.
Proof.
  unfold do_GET_routes.
  destruct (named_routes_eqb _ (static_route_not_named rel))
    as (-> & -> & -> & -> & ->).
  destruct (static_route rel) as [-> ->].
  cbn [orb]. unfold call.
  destruct (resolve env _) as [target|e]; [|reflexivity].
  rewrite (bind_ok target).
  destruct (_is_under target (STATIC_DIR env)); cbn [negb].
  - destruct (is_file env target) as [[]|e]; [| |reflexivity];
      cbv [mbind Eff_bind mret Eff_ret negb]; cbn [app];
      [by destruct (_send_static_file _ _ _ _)|by destruct (_send_404 _ _)].
  - cbv [mbind Eff_bind mret Eff_ret negb]; cbn [app].
    by destruct (_send_404 _ _).
Qed.

Lemma do_GET_routes_other d route :
  route ∉ named_routes → startswith route "/static/" = false →
  do_GET_routes env d route = _send_404 env d.
Proof.
  intros Hn Hs. unfold do_GET_routes. rewrite Hs.
  by destruct (named_routes_eqb _ Hn) as (-> & -> & -> & -> & ->).
Qed.

(** A route outside the table ends in [_send_404]. *)
Lemma unmatched_routes d route :
  ¬ explicit_route env route →
  try_except (do_GET_routes env (S d) route) (λ _, _send_404 env (S d))
  = _send_404 env (S d).
Proof.
  intros Hne.
  assert (route ∉ named_routes) as Hn by (intros ?; apply Hne; by left).
  destruct (startswith route "/static/") eqn:Hs.
  - apply startswith_slice in Hs. set (rel := slice_from _ _) in Hs.
    assert (¬ static_file env ("/static/" +:+ rel)) as Hns
      by (rewrite <- Hs; intros ?; apply Hne; by right).
    rewrite Hs, do_GET_routes_static.
    destruct (resolve env _) as [target|e] eqn:Hr; [|apply try_raise_nil].
    destruct (_is_under target (STATIC_DIR env)) eqn:Hu;
      [|apply try_send_404].
    destruct (is_file env target) as [[]|e] eqn:Hf;
      [|apply try_send_404|apply try_raise_nil].
    exfalso. apply Hns. exists rel, target.
    by rewrite <- _is_under_spec.
  - rewrite do_GET_routes_other by done. apply try_send_404.
Qed.


(** [do_POST] on [/submit] once the body is read. *)
Lemma do_POST_submit d self n body :
  path self = "/submit" →
  py_int (default "0" (headers self "Content-Length")) = Ok n →
  rfile_read (enough_memory env) (rfile self) n = Ok body →
  do_POST env (S d) self =
  match socket_socket env with
  | SockError s => (Ok (), forward_log s :: redirect)
  | SockOk _ =>
      match sendto env body (SOCKET_HOST, SOCKET_PORT) with
      | SockOk _ =>
          (Ok (), Sendto body (SOCKET_HOST, SOCKET_PORT) :: redirect)
      | SockError s =>
          (Ok (), Sendto body (SOCKET_HOST, SOCKET_PORT)
                  :: forward_log s :: redirect)
      end
  end.
Proof.
  intros Hp Hn Hb. unfold do_POST, call. rewrite Hp, Hn.
  cbn [String.eqb Ascii.eqb Bool.eqb negb].
  rewrite (bind_ok n), Hb, (bind_ok body).
  destruct (socket_socket env) as [[]|s]; [|reflexivity].
  cbn [sock]. rewrite (bind_ok ()).
  destruct (sendto env body _) as [k|s]; reflexivity.
Qed.

(** ** What a static route can open *)

Lemma send_404_opens d r t :
  _send_404 env d = (r, t) → Forall (inside env) (opened t).
Proof.
  intros Hrun. pose proof (proj1 (not_found_run_both env d)) as Hnf.
  rewrite Hrun in Hnf.
  assert (Forall (eq (error_page env)) (opened t)) as Ho
    by (destruct r; apply Hnf).
  eapply Forall_impl; [exact Ho|]. intros p <-. by left.
Qed.

Lemma try_opens (m : Eff unit) d r t :
  Forall (inside env) (opened m.2) →
  try_except m (λ _, _send_404 env d) = (r, t) →
  Forall (inside env) (opened t).
Proof.
  destruct m as [[[]|e] tm]; cbn [snd try_except]; intros Hm.
  - by intros [= _ <-].
  - destruct (_send_404 env d) as [r4 t4] eqn:H4. intros [= _ <-].
    rewrite opened_app. apply Forall_app. split; [done|].
    by apply (send_404_opens d r4).
Qed.

Lemma send_static_file_opens d p st :
  under (STATIC_DIR env) p →
  Forall (inside env) (opened (_send_static_file env d p st).2).
Proof.
  intros Hu. destruct d as [|d]; [constructor|].
  unfold _send_static_file, call.
  destruct (read_bytes env p) as [c|e].
  - destruct (guess_type env _) as [mime enc]. cbn.
    constructor; [by right|constructor].
  - cbn. constructor; [by right|constructor].
Qed.

(** Whatever a static route resolves to, the handler opens no file
    outside the static root, the error page apart. *)
Lemma static_route_opens_inside d self url rel r t :
  urlparse env (path self) = Ok url →
  urllib.path url = "/static/" +:+ rel →
  do_GET env d self = (r, t) →
  Forall (inside env) (opened t).
Proof.
  intros Hu Hp. destruct d as [|d]; [by intros [= _ <-]|].
  rewrite (do_GET_eq _ _ _ Hu), Hp, do_GET_routes_static.
  apply try_opens.
  destruct (resolve env _) as [target|e]; [|constructor].
  destruct (_is_under target (STATIC_DIR env)) eqn:Hunder.
  - apply _is_under_spec in Hunder.
    destruct (is_file env target) as [[]|e]; [| |constructor].
    + by apply send_static_file_opens.
    + destruct (_send_404 env d) as [r4 t4] eqn:H4.
      by apply (send_404_opens d r4).
  - destruct (_send_404 env d) as [r4 t4] eqn:H4.
    by apply (send_404_opens d r4).
Qed.

(** X4.  A target [urlparse] rejects: the exception leaves [do_GET],
    which calls [urlparse] before its [try] block; nothing is opened and
    no response is written. *)
Lemma do_GET_unparsable d self e :
  urlparse env (path self) = Raise e →
  do_GET env (S d) self = (Raise e, []).
Proof. intros Hu. unfold do_GET, call. by rewrite Hu. Qed.

End request_facts.

(** ** The claims about the HTTP server *)

(** C1.  A GET whose path starts with [/static/] and whose resolved
    target is not under the static root gets the not-found behaviour:
    [do_GET] does what [_send_404] does, which returns after one 404
    response, and the only file it opens is the error page of the
    not-found behaviour. *)
Theorem static_traversal_not_found env d self url rel target :
  urlparse env (path self) = Ok url →
  urllib.path url = "/static/" +:+ rel →
  resolve env (joinpath env (STATIC_DIR env) rel) = Ok target →
  ¬ under (STATIC_DIR env) target →
  do_GET env (S (S d)) self = _send_404 env (S d)
  ∧ ∃ t, do_GET env (S (S d)) self = (Ok (), t)
         ∧ is_404 (wire t)
         ∧ Forall (eq (error_page env)) (opened t).
Proof.
  intros Hu Hp Hres Hout.
  assert (do_GET env (S (S d)) self = _send_404 env (S d)) as Heq.
  { rewrite (do_GET_eq env _ _ _ Hu), Hp, do_GET_routes_static, Hres.
    destruct (_is_under target (STATIC_DIR env)) eqn:Hunder.
    - by apply _is_under_spec in Hunder.
    - apply try_send_404. }
  split; [exact Heq|]. rewrite Heq. apply send_404_returns.
Qed.

Lemma static_traversal_not_found_witness :
  let self := Sample.GET "/static/../main.py" in
  let target := ["/"; "srv"; "app"; "main.py"] in
  (urlparse Sample.env (path self) = Ok (Sample.bare "/static/../main.py")
   ∧ resolve Sample.env
       (joinpath Sample.env (STATIC_DIR Sample.env) "../main.py")
     = Ok target
   ∧ ¬ under (STATIC_DIR Sample.env) target)
  ∧ do_GET Sample.env 3 self = _send_404 Sample.env 2
  ∧ ∃ t, do_GET Sample.env 3 self = (Ok (), t)
         ∧ is_404 (wire t)
         ∧ Forall (eq (error_page Sample.env)) (opened t).
Proof.
  intros self target.
  assert (¬ under (STATIC_DIR Sample.env) target) as Hout.
  { intros [rest Hrest]. vm_compute in Hrest. discriminate Hrest. }
  split; [split; [reflexivity|split; [reflexivity|exact Hout]]|].
  apply (static_traversal_not_found Sample.env 1 self
           (Sample.bare "/static/../main.py") "../main.py" target).
  - reflexivity.
  - reflexivity.
  - reflexivity.
  - exact Hout.
Defined.

(** On a target [urlparse] accepts, a GET whose path is none of the
    named routes and no static route that resolves to a regular file
    under the static root gets the not-found behaviour: [do_GET] does
    what [_send_404] does and returns after one 404 response; no
    exception leaves it. *)
Theorem unmatched_GET_not_found env d self url :
  urlparse env (path self) = Ok url →
  ¬ explicit_route env (urllib.path url) →
  do_GET env (S (S d)) self = _send_404 env (S d)
  ∧ ∃ t, do_GET env (S (S d)) self = (Ok (), t) ∧ is_404 (wire t).
Proof.
  intros Hu Hne.
  assert (do_GET env (S (S d)) self = _send_404 env (S d)) as Heq
    by (rewrite (do_GET_eq env _ _ _ Hu); by apply unmatched_routes).
  split; [exact Heq|]. rewrite Heq.
  destruct (send_404_returns env d) as (t & Ht & Hw & _). by exists t.
Qed.

Lemma unmatched_GET_not_found_witness :
  let self := Sample.GET "/nope" in
  (urlparse Sample.env (path self) = Ok (Sample.bare "/nope")
   ∧ ¬ explicit_route Sample.env "/nope")
  ∧ do_GET Sample.env 3 self = _send_404 Sample.env 2
  ∧ ∃ t, do_GET Sample.env 3 self = (Ok (), t) ∧ is_404 (wire t).
Proof.
  intros self.
  assert (¬ explicit_route Sample.env "/nope") as Hne.
  { intros [Hn|(rel & target & Hr & _)].
    - vm_compute in Hn.
      repeat (apply elem_of_cons in Hn as [Hn|Hn]; [discriminate Hn|]).
      by apply elem_of_nil in Hn.
    - discriminate Hr. }
  split; [split; [reflexivity|exact Hne]|].
  apply (unmatched_GET_not_found Sample.env 1 self (Sample.bare "/nope")).
  - reflexivity.
  - exact Hne.
Defined.

(** C4, where [do_GET] departs from it.  The target [http://[::1/nope]
    is no route of the table.  [urlparse] (l.59) raises [ValueError] on
    it, and the call stands before the [try] block (l.62) whose
    [except Exception] clause turns every later failure into the
    not-found response: the exception leaves [do_GET], and nothing is
    written to the connection.  On the same installation the target
    [/nope] gets the 404 response. *)
Lemma unparsable_GET_escapes :
  let self := Sample.GET "http://[::1/nope" in
  let e := Exc ValueError "Invalid IPv6 URL" in
  (path self ∉ named_routes)
  ∧ startswith (path self) "/static/" = false
  ∧ urlparse Edge.env_strict (path self) = Raise e
  ∧ do_GET Edge.env_strict 3 self = (Raise e, [])
  ∧ wire (do_GET Edge.env_strict 3 self).2 = []
  ∧ is_404 (wire (do_GET Edge.env_strict 3 (Sample.GET "/nope")).2).
Proof.
  intros self e. split; [|split; [|split; [|split; [|split]]]].
  - intros Hn. vm_compute in Hn.
    repeat (apply elem_of_cons in Hn as [Hn|Hn]; [discriminate Hn|]).
    by apply elem_of_nil in Hn.
  - vm_compute. reflexivity.
  - vm_compute. reflexivity.
  - vm_compute. reflexivity.
  - vm_compute. reflexivity.
  - right. exists (bytes_lit "<h1>not found</h1>"). vm_compute. reflexivity.
Qed.




(** C10.  Two GET requests whose targets parse to the same path get the
    same treatment, whatever their query strings and fragments are. *)
Theorem GET_depends_on_path_only env d self1 self2 url1 url2 :
  urlparse env (path self1) = Ok url1 →
  urlparse env (path self2) = Ok url2 →
  urllib.path url1 = urllib.path url2 →
  do_GET env d self1 = do_GET env d self2.
Proof.
  intros H1 H2 Hp. destruct d as [|d]; [reflexivity|].
  by rewrite (do_GET_eq env _ _ _ H1), (do_GET_eq env _ _ _ H2), Hp.
Qed.

Lemma GET_depends_on_path_only_witness :
  let self1 := Sample.GET "/message?status=ok" in
  let self2 := Sample.GET "/message?status=no#top" in
  let url1 := {| urllib.scheme := ""; urllib.netloc := "";
                 urllib.path := "/message"; urllib.params := "";
                 urllib.query := "status=ok"; urllib.fragment := "" |} in
  let url2 := {| urllib.scheme := ""; urllib.netloc := "";
                 urllib.path := "/message"; urllib.params := "";
                 urllib.query := "status=no"; urllib.fragment := "top" |} in
  (urlparse Sample.env (path self1) = Ok url1
   ∧ urlparse Sample.env (path self2) = Ok url2
   ∧ urllib.path url1 = urllib.path url2)
  ∧ do_GET Sample.env 3 self1 = do_GET Sample.env 3 self2.
Proof.
  intros self1 self2 url1 url2.
  split; [split; [reflexivity|split; reflexivity]|].
  apply (GET_depends_on_path_only Sample.env 3 self1 self2 url1 url2).
  - reflexivity.
  - reflexivity.
  - reflexivity.
Defined.

(** C3.  A POST to [/submit] whose [Content-Length] is a number and
    whose body can be read (the length is one [read] accepts and the
    machine has the memory for) returns, without an exception, after
    the one response [303] with [Location: /message.html?status=ok],
    whether the socket calls succeed or fail; a failure is written to
    [stderr].  The store is no input of [do_POST]. *)
Theorem submit_always_redirects env d self n body :
  path self = "/submit" →
  py_int (default "0" (headers self "Content-Length")) = Ok n →
  rfile_read (enough_memory env) (rfile self) n = Ok body →
  ∃ t, do_POST env (S d) self = (Ok (), t)
       ∧ wire t = redirect
       ∧ ∀ s, send_fails env body s → forward_log s ∈ t.
Proof.
  intros Hp Hn Hb. rewrite (do_POST_submit env d self n body Hp Hn Hb).
  unfold send_fails.
  destruct (socket_socket env) as [[]|s] eqn:Hs.
  - destruct (sendto env body _) as [k|s] eqn:Hsend.
    + eexists. split; [reflexivity|]. split; [reflexivity|].
      intros s [?|[_ ?]]; discriminate.
    + eexists. split; [reflexivity|]. split; [reflexivity|].
      intros s' [?|[_ [= ->]]]; [discriminate|].
      rewrite !elem_of_cons. by right; left.
  - eexists. split; [reflexivity|]. split; [reflexivity|].
    intros s' [[= ->]|[? _]]; [|discriminate]. rewrite elem_of_cons. by left.
Qed.

Lemma submit_always_redirects_witness :
  let env := Sample.env_unreachable in
  let self := Sample.POST "/submit" (Some "25") "username=alice&message=hi" in
  let body := bytes_lit "username=alice&message=hi" in
  (path self = "/submit"
   ∧ py_int (default "0" (headers self "Content-Length")) = Ok 25
   ∧ rfile_read (enough_memory env) (rfile self) 25 = Ok body
   ∧ send_fails env body "Network is unreachable")
  ∧ ∃ t, do_POST env 1 self = (Ok (), t)
         ∧ wire t = redirect
         ∧ ∀ s, send_fails env body s → forward_log s ∈ t.
Proof.
  intros env self body.
  assert (py_int (default "0" (headers self "Content-Length")) = Ok 25)
    as Hn by (vm_compute; reflexivity).
  assert (rfile_read (enough_memory env) (rfile self) 25 = Ok body)
    as Hb by (vm_compute; reflexivity).
  split.
  - split; [reflexivity|]. split; [exact Hn|]. split; [exact Hb|].
    right. split; reflexivity.
  - apply (submit_always_redirects env 0 self 25 body).
    + reflexivity.
    + exact Hn.
    + exact Hb.
Defined.

(** C9.  A POST to [/submit] without a [Content-Length] header: the
    length is [int("0")], the read of zero bytes gives the empty body,
    and the handler returns after the redirect.  When the socket can be
    created, exactly one datagram is handed to [sendto], the empty one
    for the storage endpoint; in no case is another one sent. *)
Theorem submit_without_content_length env d self :
  path self = "/submit" →
  headers self "Content-Length" = None →
  rfile_read (enough_memory env) (rfile self) 0 = Ok []
  ∧ ∃ t, do_POST env (S d) self = (Ok (), t)
         ∧ wire t = redirect
         ∧ (socket_socket env = SockOk () →
            datagrams t = [([], (SOCKET_HOST, SOCKET_PORT))])
         ∧ (∀ dg, dg ∈ datagrams t → dg = ([], (SOCKET_HOST, SOCKET_PORT))).
Proof.
  intros Hp Hh. split; [reflexivity|].
  rewrite (do_POST_submit env d self 0 [] Hp); [|by rewrite Hh|reflexivity].
  destruct (socket_socket env) as [[]|s].
  - destruct (sendto env [] _) as [k|s];
      (eexists; split; [reflexivity|]; split; [reflexivity|];
       split; [done|]);
      cbn [datagrams]; intros dg Hdg;
      by apply list_elem_of_singleton in Hdg.
  - eexists. split; [reflexivity|]. split; [reflexivity|]. split; [done|].
    cbn [datagrams]. intros dg Hdg. by apply elem_of_nil in Hdg.
Qed.

Lemma submit_without_content_length_witness :
  let self := Sample.POST "/submit" None "username=alice&message=hi" in
  (path self = "/submit" ∧ headers self "Content-Length" = None)
  ∧ rfile_read (enough_memory Sample.env) (rfile self) 0 = Ok []
  ∧ ∃ t, do_POST Sample.env 1 self = (Ok (), t)
         ∧ wire t = redirect
         ∧ (socket_socket Sample.env = SockOk () →
            datagrams t = [([], (SOCKET_HOST, SOCKET_PORT))])
         ∧ (∀ dg, dg ∈ datagrams t → dg = ([], (SOCKET_HOST, SOCKET_PORT))).
Proof.
  intros self. split; [split; reflexivity|].
  apply (submit_without_content_length Sample.env 0 self).
  - reflexivity.
  - reflexivity.
Defined.

(** ** Timestamps *)

Lemma matches_app p1 p2 s1 s2 :
  matches p1 s1 = true → matches p2 s2 = true →
  matches (p1 ++ p2) (s1 ++ s2) = true.
Proof.
  revert s1. induction p1 as [|k p1 IH]; intros [|c s1]; simpl; try done.
  intros [Hk Hm]%andb_true_iff H2. rewrite Hk. simpl. by apply IH.
Qed.

Lemma matches_zfill w n : matches (repeat Digit w) (zfill w n) = true.
Proof.
  revert n. induction w as [|w IH]; intros n; [done|].
  cbn [zfill repeat]. rewrite repeat_cons.
  apply matches_app; [apply IH|].
  cbn [matches in_class]. rewrite andb_true_r. unfold digit.
  assert (n mod 10 < 10)%N by (apply N.mod_lt; lia).
  apply andb_true_iff. split; apply N.leb_le; [apply N.le_add_r | lia].
Qed.

(** From the year 1000 on, [%Y] writes four digits. *)
Lemma format_Y_four y : (1000 ≤ y)%N → format_Y y = zfill 4 y.
Proof.
  intros Hy. unfold format_Y.
  destruct (N.ltb_spec y 10); [lia|].
  destruct (N.ltb_spec y 100); [lia|].
  destruct (N.ltb_spec y 1000); [lia|done].
Qed.

(** The timestamp of a clock reading in the years 1000 to 9999 has the
    format [YYYY-MM-DD HH:MM:SS.ffffff]. *)
Lemma strftime_format dt :
  valid_datetime dt → matches date_format (strftime dt) = true.
Proof.
  intros (Hy & _). unfold date_format, strftime.
  rewrite (format_Y_four _ (proj1 Hy)).
  repeat (apply matches_app; [first [apply matches_zfill | reflexivity]|]).
  apply matches_zfill.
Qed.

Lemma length_zfill w n : length (zfill w n) = w.
Proof.
  revert n. induction w as [|w IH]; intros n; [done|].
  cbn [zfill]. rewrite length_app, IH. simpl. lia.
Qed.

Lemma str_ltb_app_same p x y : str_ltb (p ++ x) (p ++ y) = str_ltb x y.
Proof.
  induction p as [|c p IH]; [done|]. simpl.
  by rewrite N.ltb_irrefl, N.eqb_refl.
Qed.

Lemma str_ltb_app_lt x y x' y' :
  length x = length y → str_ltb x y = true →
  str_ltb (x ++ x') (y ++ y') = true.
Proof.
  revert y. induction x as [|k x IH]; intros [|l y]; simpl; try done.
  intros [= Hlen]. destruct (k <? l)%N; [done|].
  destruct (k =? l)%N; [|done]. by apply IH.
Qed.

(** The order of two numbers is the order of their zero-padded
    numerals. *)
Lemma zfill_lt w n m :
  (n < m)%N → (m < 10 ^ N.of_nat w)%N → str_lt (zfill w n) (zfill w m).
Proof.
  unfold str_lt. revert n m. induction w as [|w IH]; intros n m Hnm Hm.
  - simpl in Hm. lia.
  - cbn [zfill].
    assert (m / 10 < 10 ^ N.of_nat w)%N as Hm'.
    { apply N.Div0.div_lt_upper_bound.
      rewrite Nat2N.inj_succ, N.pow_succ_r' in Hm. lia. }
    destruct (N.lt_ge_cases (n / 10) (m / 10)) as [Hlt|Hge].
    + apply str_ltb_app_lt; [by rewrite !length_zfill|by apply IH].
    + assert (n / 10 = m / 10)%N as Heq.
      { apply N.le_antisymm; [|done]. apply N.Div0.div_le_mono. lia. }
      rewrite Heq, str_ltb_app_same. simpl. unfold digit.
      assert (n mod 10 < m mod 10)%N as Hmod.
      { pose proof (N.Div0.div_mod n 10).
        pose proof (N.Div0.div_mod m 10). lia. }
      assert ((48 + n mod 10 <? 48 + m mod 10)%N = true) as ->
        by (apply N.ltb_lt; lia).
      done.
Qed.

(** One field of a timestamp and what follows it. *)
Lemma field_lt w n m (x y : ustr) :
  (m < 10 ^ N.of_nat w)%N →
  (n < m)%N ∨ n = m ∧ str_lt x y →
  str_lt (zfill w n ++ x) (zfill w m ++ y).
Proof.
  intros Hm [Hlt|[-> Hxy]]; unfold str_lt in *.
  - apply str_ltb_app_lt; [by rewrite !length_zfill|by apply zfill_lt].
  - by rewrite str_ltb_app_same.
Qed.

Lemma sep_lt c (x y : ustr) : str_lt x y → str_lt (c :: x) (c :: y).
Proof. unfold str_lt. simpl. by rewrite N.ltb_irrefl, N.eqb_refl. Qed.

Lemma strftime_eq dt :
  valid_datetime dt →
  strftime dt =
  zfill 4 (year dt) ++ 45%N :: zfill 2 (month dt) ++ 45%N
  :: zfill 2 (day dt) ++ 32%N :: zfill 2 (hour dt) ++ 58%N
  :: zfill 2 (minute dt) ++ 58%N :: zfill 2 (second dt) ++ 46%N
  :: zfill 6 (microsecond dt).
Proof.
  intros (Hy & _). unfold strftime. by rewrite (format_Y_four _ (proj1 Hy)).
Qed.

(** [strftime] keeps the order of the clock readings. *)
Lemma strftime_lt x y :
  valid_datetime x → valid_datetime y → dt_lt x y →
  str_lt (strftime x) (strftime y).
Proof.
  intros Hx Hy' Hlt. rewrite (strftime_eq x Hx), (strftime_eq y Hy').
  destruct Hy' as (Hy & Hmo & Hd & Hh & Hmi & Hs & Hus). unfold dt_lt in Hlt.
  do 6 (apply field_lt; [simpl; lia|];
        destruct Hlt as [?|[? Hlt]]; [by left|right; split; [done|]];
        apply sep_lt).
  apply zfill_lt; [done|simpl; lia].
Qed.

Lemma str_ltb_irrefl x : str_ltb x x = false.
Proof.
  induction x as [|c x IH]; [done|]. simpl.
  by rewrite N.ltb_irrefl, N.eqb_refl.
Qed.

Lemma str_ltb_asym x y : str_ltb x y = true → str_ltb y x = false.
Proof.
  revert y. induction x as [|c x IH]; intros [|d y]; simpl; try done.
  destruct (N.ltb_spec c d) as [Hlt|Hge].
  - intros _. destruct (N.ltb_spec d c); [lia|].
    destruct (N.eqb_spec d c); [lia|done].
  - destruct (N.eqb_spec c d) as [->|Hne]; [|done].
    rewrite N.ltb_irrefl, N.eqb_refl. apply IH.
Qed.

(** Compare one field; go on when the two are equal. *)
Ltac by_field a0 b0 :=
  destruct (N.lt_trichotomy a0 b0) as [?|[->|?]]; [tauto| |tauto].

Lemma dt_trichotomy x y : dt_lt x y ∨ x = y ∨ dt_lt y x.
Proof.
  destruct x as [a1 a2 a3 a4 a5 a6 a7], y as [b1 b2 b3 b4 b5 b6 b7].
  unfold dt_lt. cbn [year month day hour minute second microsecond].
  by_field a1 b1. by_field a2 b2. by_field a3 b3. by_field a4 b4.
  by_field a5 b5. by_field a6 b6.
  destruct (N.lt_trichotomy a7 b7) as [?|[->|?]]; tauto.
Qed.

(** [strftime] keeps and reflects the order of the clock readings. *)
Lemma strftime_lt_iff x y :
  valid_datetime x → valid_datetime y →
  dt_lt x y ↔ str_lt (strftime x) (strftime y).
Proof.
  intros Hx Hy. split; [by apply strftime_lt|].
  intros Hlt. destruct (dt_trichotomy x y) as [?|[->|Hyx]]; [done|..].
  - unfold str_lt in Hlt. by rewrite str_ltb_irrefl in Hlt.
  - apply (strftime_lt _ _ Hy Hx) in Hyx.
    unfold str_lt in *. apply str_ltb_asym in Hyx. congruence.
Qed.

Lemma increasing_fmap {A B} (f : A → B) (ltA : A → A → Prop)
    (ltB : B → B → Prop) (P : A → Prop) l :
  (∀ x y, P x → P y → ltA x y ↔ ltB (f x) (f y)) →
  Forall P l → increasing ltA l ↔ increasing ltB (f <$> l).
Proof.
  intros Hf. induction l as [|x [|y l] IH]; [done..|].
  intros HP. inversion HP as [|? ? Hx HP']; subst.
  inversion HP' as [|? ? Hy _]; subst.
  cbn [increasing fmap list_fmap] in *.
  by rewrite (Hf x y Hx Hy), (IH HP').
Qed.

(** ** The receive loop *)

Lemma field_blank parsed key : blank parsed key → field parsed key = Ok [].
Proof.
  unfold field. intros [->|(v & vs & -> & Hv)]; simpl; [done|by rewrite Hv].
Qed.

Lemma field_filled parsed key text :
  filled parsed key text → field parsed key = Ok text ∧ truthy text = true.
Proof.
  unfold field. intros (v & vs & -> & <- & Hne). simpl.
  split; [done|]. by destruct (strip v).
Qed.

Section loop_facts.
Context (codec : Codec).

(** The loop body, case by case. *)
Lemma loop_body_eq a st :
  loop_body codec a st =
  match field (form codec a) (str_lit "username") with
  | Raise e => (Raise e, log st [received codec a])
  | Ok un =>
      match field (form codec a) (str_lit "message") with
      | Raise e => (Raise e, log st [received codec a])
      | Ok msg =>
          let doc := {| date := strftime (now a); username := un;
                        message := msg |} in
          if truthy un && truthy msg then
            match insert_error a with
            | None =>
                (Ok (), {| collection := collection st ++ [doc];
                           stdout := stdout st
                                     ++ [received codec a; Saved doc] |})
            | Some e => (Ok (), log st [received codec a; InsertError e])
            end
          else (Ok (), log st [received codec a; Skipped])
      end
  end.
Proof.
  unfold loop_body, form, received, log, mbind, Srv_bind, print, lift,
    try_Srv, insert_one.
  cbn [collection stdout].
  destruct (field _ (str_lit "username")) as [un|e]; [|done].
  destruct (field _ (str_lit "message")) as [msg|e]; [|done].
  cbn [username message].
  destruct (truthy un && truthy msg); cbn [collection stdout].
  - destruct (insert_error a); cbn [collection stdout];
      by rewrite <- app_assoc.
  - by rewrite <- app_assoc.
Qed.

Lemma receive_loop_cons a rest st :
  receive_loop codec (a :: rest) st =
  match loop_body codec a st with
  | (Ok _, st') => receive_loop codec rest st'
  | (Raise e, st') => (Raise e, st')
  end.
Proof. reflexivity. Qed.

(** The collection only grows. *)
Lemma loop_body_append a st :
  ∃ docs, collection (loop_body codec a st).2 = collection st ++ docs.
Proof.
  rewrite loop_body_eq.
  destruct (field _ (str_lit "username")) as [un|e];
    [|exists []; by rewrite app_nil_r].
  destruct (field _ (str_lit "message")) as [msg|e];
    [|exists []; by rewrite app_nil_r].
  cbn zeta. destruct (truthy un && truthy msg);
    [destruct (insert_error a)|]; simpl;
    first [by eexists [_] | exists []; by rewrite app_nil_r].
Qed.

(** The loop body prints the line of its datagram first; the
    collection and the printed lines only grow. *)
Lemma loop_body_prints a st :
  ∃ docs lines,
    collection (loop_body codec a st).2 = collection st ++ docs
    ∧ stdout (loop_body codec a st).2
      = stdout st ++ received codec a :: lines.
Proof.
  rewrite loop_body_eq.
  destruct (field _ (str_lit "username")) as [un|e];
    [|exists [], []; by rewrite app_nil_r].
  destruct (field _ (str_lit "message")) as [msg|e];
    [|exists [], []; by rewrite app_nil_r].
  cbn zeta. destruct (truthy un && truthy msg);
    [destruct (insert_error a)|]; cbn [snd log collection stdout];
    first [by eexists [_], [_] | eexists [], [_]; by rewrite app_nil_r].
Qed.

Lemma receive_loop_grows arrivals st :
  ∃ docs lines,
    collection (receive_loop codec arrivals st).2 = collection st ++ docs
    ∧ stdout (receive_loop codec arrivals st).2 = stdout st ++ lines.
Proof.
  revert st. induction arrivals as [|a arrivals IH]; intros st.
  { exists [], []. by rewrite !app_nil_r. }
  rewrite receive_loop_cons.
  destruct (loop_body_prints a st) as (d1 & l1 & Hc1 & Ho1).
  destruct (loop_body codec a st) as [[[]|e] st1]; cbn [snd] in *.
  - destruct (IH st1) as (d2 & l2 & Hc2 & Ho2).
    exists (d1 ++ d2), (received codec a :: l1 ++ l2).
    rewrite Hc2, Ho2, Hc1, Ho1, <- !app_assoc. done.
  - by eexists _, _.
Qed.

(** When the store cannot be reached at start, the server prints the
    failure and returns without receiving. *)
Lemma run_socket_server_no_store e bind arrivals st :
  run_socket_server codec (Raise e) bind arrivals st =
  (Ok (), log st [match exc_cls e with
                  | ConnectionFailure => ConnectionFailed e
                  | _ => InitError e
                  end]).
Proof.
  unfold run_socket_server, mbind, Srv_bind, try_Srv, lift, print, log.
  cbn. by destruct (exc_cls e).
Qed.

(** Once connected and bound, the server is its receive loop. *)
Lemma run_socket_server_started bound arrivals st :
  run_socket_server codec (Ok ()) (SockOk bound) arrivals st =
  receive_loop codec arrivals (log st [Connected; Listening]).
Proof.
  unfold run_socket_server, mbind, Srv_bind, try_Srv, lift, print, log.
  cbn. rewrite <- app_assoc. reflexivity.
Qed.

End loop_facts.

(** ** The claims about the socket server *)

(** C2.  A datagram whose [username] or [message] field is empty after
    trimming, or absent, leaves the collection as it was; when the loop
    body returns, it has printed the line for the skipped insert. *)
Theorem blank_field_not_stored codec a st :
  blank (form codec a) (str_lit "username")
  ∨ blank (form codec a) (str_lit "message") →
  collection (loop_body codec a st).2 = collection st
  ∧ ((loop_body codec a st).1 = Ok () →
     (loop_body codec a st).2 = log st [received codec a; Skipped]).
Proof.
  intros Hblank. rewrite loop_body_eq.
  destruct Hblank as [Hb|Hb]; apply field_blank in Hb.
  - rewrite Hb. destruct (field _ (str_lit "message")) as [msg|e]; simpl;
      [done|]. split; [done|]. discriminate.
  - rewrite Hb. destruct (field _ (str_lit "username")) as [un|e]; simpl.
    + by rewrite andb_false_r.
    + split; [done|]. discriminate.
Qed.

Lemma blank_field_not_stored_witness :
  let codec := SampleCodec.codec in
  let a := SampleCodec.nameless in
  blank (form codec a) (str_lit "username")
  ∧ collection (loop_body codec a fresh).2 = collection fresh
  ∧ ((loop_body codec a fresh).1 = Ok () →
     (loop_body codec a fresh).2 = log fresh [received codec a; Skipped]).
Proof.
  intros codec a.
  assert (blank (form codec a) (str_lit "username")) as Hblank.
  { right. exists [], []. split; vm_compute; reflexivity. }
  split; [exact Hblank|].
  apply (blank_field_not_stored codec a fresh). left. exact Hblank.
Defined.

(** C8.  When both fields are filled and [insert_one] raises, the loop
    body returns after printing the error and the collection is as it
    was.  The loop then runs its body on the next datagram, in the
    state the failure left: the line of that datagram is printed right
    after the error, and when its two fields are filled and its insert
    succeeds, its record is appended to the collection. *)
Theorem failed_insert_continues codec a next rest st un msg e :
  filled (form codec a) (str_lit "username") un →
  filled (form codec a) (str_lit "message") msg →
  insert_error a = Some e →
  loop_body codec a st = (Ok (), log st [received codec a; InsertError e])
  ∧ collection (loop_body codec a st).2 = collection st
  ∧ receive_loop codec (a :: next :: rest) st
    = match loop_body codec next
              (log st [received codec a; InsertError e]) with
      | (Ok _, st') => receive_loop codec rest st'
      | (Raise x, st') => (Raise x, st')
      end
  ∧ (∃ lines,
       stdout (receive_loop codec (a :: next :: rest) st).2
       = stdout st
         ++ [received codec a; InsertError e; received codec next]
         ++ lines)
  ∧ (∀ doc,
       stored codec next doc → insert_error next = None →
       valid_datetime (now next) →
       ∃ docs,
         collection (receive_loop codec (a :: next :: rest) st).2
         = collection st ++ doc :: docs).
Proof.
  intros [Hu Htu]%field_filled [Hm Htm]%field_filled He.
  set (st1 := log st [received codec a; InsertError e]).
  assert (loop_body codec a st = (Ok (), st1)) as Hbody
    by (rewrite loop_body_eq, Hu, Hm; cbn zeta; by rewrite Htu, Htm, He).
  assert (receive_loop codec (a :: next :: rest) st
          = match loop_body codec next st1 with
            | (Ok _, st') => receive_loop codec rest st'
            | (Raise x, st') => (Raise x, st')
            end) as Hnext
    by (by rewrite receive_loop_cons, Hbody, receive_loop_cons).
  split; [exact Hbody|]. split; [by rewrite Hbody|].
  split; [exact Hnext|]. rewrite Hnext. split.
  - destruct (loop_body_prints codec next st1) as (d1 & l1 & _ & Ho1).
    destruct (loop_body codec next st1) as [[[]|x] st2]; cbn [snd] in *.
    + destruct (receive_loop_grows codec rest st2) as (d2 & l2 & _ & Ho2).
      exists (l1 ++ l2). rewrite Ho2, Ho1. unfold st1, log. cbn [stdout].
      by rewrite <- !app_assoc.
    + exists l1. rewrite Ho1. unfold st1, log. cbn [stdout].
      by rewrite <- !app_assoc.
  - intros [dt un' msg'] (Hd & Hfu & Hfm) Hi _. cbn [date username message] in *.
    apply field_filled in Hfu as [Hu' Htu'].
    apply field_filled in Hfm as [Hm' Htm'].
    rewrite loop_body_eq, Hu', Hm'. cbn zeta. rewrite Htu', Htm', Hi.
    cbn [andb].
    destruct (receive_loop_grows codec rest
                {| collection := collection st1
                     ++ [ {| date := strftime (now next);
                             username := un'; message := msg' |} ];
                   stdout := stdout st1
                     ++ [received codec next;
                         Saved {| date := strftime (now next);
                                  username := un'; message := msg' |}] |})
      as (d2 & l2 & Hc2 & _).
    exists d2. rewrite Hc2, Hd. unfold st1, log. cbn [collection].
    by rewrite <- app_assoc.
Qed.

Lemma alice_complete t failure :
  filled (form SampleCodec.codec (SampleCodec.alice t failure))
    (str_lit "username") (str_lit "alice")
  ∧ filled (form SampleCodec.codec (SampleCodec.alice t failure))
      (str_lit "message") (str_lit "hi").
Proof.
  split.
  - exists (str_lit "alice"), [].
    split; [vm_compute; reflexivity|]. split; [vm_compute; reflexivity|done].
  - exists (str_lit "hi"), [].
    split; [vm_compute; reflexivity|]. split; [vm_compute; reflexivity|done].
Defined.

Lemma bob_complete t :
  filled (form SampleCodec.codec (SampleCodec.bob t))
    (str_lit "username") (str_lit "bob")
  ∧ filled (form SampleCodec.codec (SampleCodec.bob t))
      (str_lit "message") (str_lit "hello").
Proof.
  split.
  - exists (str_lit "bob"), [].
    split; [vm_compute; reflexivity|]. split; [vm_compute; reflexivity|done].
  - exists (str_lit "hello"), [].
    split; [vm_compute; reflexivity|]. split; [vm_compute; reflexivity|done].
Defined.

Lemma sample_clocks_valid :
  valid_datetime SampleCodec.before_three
  ∧ valid_datetime SampleCodec.later.
Proof. unfold valid_datetime. cbn. lia. Defined.

Lemma failed_insert_continues_witness :
  let codec := SampleCodec.codec in
  let a := SampleCodec.alice SampleCodec.before_three
             (Some SampleCodec.closed) in
  let next := SampleCodec.bob SampleCodec.later in
  let st := log fresh [received codec a; InsertError SampleCodec.closed] in
  (filled (form codec a) (str_lit "username") (str_lit "alice")
   ∧ filled (form codec a) (str_lit "message") (str_lit "hi")
   ∧ insert_error a = Some SampleCodec.closed)
  ∧ loop_body codec a fresh = (Ok (), st)
  ∧ collection (loop_body codec a fresh).2 = collection fresh
  ∧ receive_loop codec [a; next] fresh
    = match loop_body codec next st with
      | (Ok _, st') => receive_loop codec [] st'
      | (Raise x, st') => (Raise x, st')
      end
  ∧ (∃ lines,
       stdout (receive_loop codec [a; next] fresh).2
       = stdout fresh
         ++ [received codec a; InsertError SampleCodec.closed;
             received codec next]
         ++ lines)
  ∧ (∀ doc,
       stored codec next doc → insert_error next = None →
       valid_datetime (now next) →
       ∃ docs,
         collection (receive_loop codec [a; next] fresh).2
         = collection fresh ++ doc :: docs).
Proof.
  intros codec a next st.
  split; [split; [apply alice_complete|split;
                  [apply alice_complete|reflexivity]]|].
  apply (failed_insert_continues codec a next [] fresh
           (str_lit "alice") (str_lit "hi") SampleCodec.closed).
  - apply alice_complete.
  - apply alice_complete.
  - reflexivity.
Defined.

(** The datagram after a failed insert is stored. *)
Example stored_after_failure :
  collection
    (receive_loop SampleCodec.codec
       [SampleCodec.alice SampleCodec.before_three (Some SampleCodec.closed);
        SampleCodec.bob SampleCodec.later] fresh).2
  = [ {| date := str_lit "2025-10-26 04:00:00.000000";
         username := str_lit "bob"; message := str_lit "hello" |} ].
Proof. vm_compute. reflexivity. Qed.

(** C7, as the code has it.  For a sequence of datagrams whose two
    fields are filled and whose inserts succeed, the loop returns with
    one new record per datagram, in the order of arrival; the [date] of
    each record is the clock reading of its datagram in the format
    [YYYY-MM-DD HH:MM:SS.ffffff]; and the dates are increasing exactly
    when the clock readings are. *)
Theorem complete_payloads_stored codec arrivals st :
  Forall (λ a, complete codec a ∧ insert_error a = None
               ∧ valid_datetime (now a)) arrivals →
  ∃ docs out,
    receive_loop codec arrivals st
    = (Ok (), {| collection := collection st ++ docs; stdout := out |})
    ∧ Forall2 (stored codec) arrivals docs
    ∧ Forall (λ doc, matches date_format (date doc) = true) docs
    ∧ (increasing dt_lt (now <$> arrivals)
       ↔ increasing str_lt (date <$> docs)).
Proof.
  intros Hall.
  assert (∃ docs out,
    receive_loop codec arrivals st
    = (Ok (), {| collection := collection st ++ docs; stdout := out |})
    ∧ Forall2 (stored codec) arrivals docs) as (docs & out & Hrun & Hst).
  { revert st. induction Hall as [|a arrivals (Hc & Hi & _) _ IH]; intros st.
    - exists [], (stdout st). rewrite app_nil_r.
      split; [by destruct st|constructor].
    - destruct Hc as (un & msg & Hfu & Hfm).
      destruct (field_filled _ _ _ Hfu) as [Hu Htu].
      destruct (field_filled _ _ _ Hfm) as [Hm Htm].
      rewrite receive_loop_cons, loop_body_eq, Hu, Hm. cbn zeta.
      rewrite Htu, Htm, Hi. cbn [andb].
      edestruct IH as (docs & out & -> & Hst).
      cbn [collection]. eexists (_ :: docs), out.
      rewrite <- app_assoc. split; [reflexivity|].
      constructor; [|exact Hst]. by split. }
  exists docs, out. split; [exact Hrun|]. split; [exact Hst|].
  assert (date <$> docs = strftime <$> (now <$> arrivals)) as Hdates.
  { clear Hrun Hall. induction Hst as [|a doc ? ? (Hd & _) _ IH]; [done|].
    cbn [fmap list_fmap] in *. by rewrite Hd, IH. }
  split.
  - apply Forall_forall. intros doc Hdoc.
    assert (date doc ∈ date <$> docs) as Hin
      by (by apply list_elem_of_fmap_2).
    rewrite Hdates in Hin. apply list_elem_of_fmap in Hin as (dt & -> & Hdt).
    apply list_elem_of_fmap in Hdt as (a & -> & Ha).
    rewrite Forall_forall in Hall. apply strftime_format, (Hall a Ha).
  - rewrite Hdates. apply (increasing_fmap _ _ _ valid_datetime).
    + intros x y. apply strftime_lt_iff.
    + apply Forall_fmap. eapply Forall_impl; [exact Hall|].
      by intros ? (_ & _ & ?).
Qed.

Lemma complete_payloads_stored_witness :
  let codec := SampleCodec.codec in
  let arrivals := [SampleCodec.alice SampleCodec.before_three None;
                   SampleCodec.bob SampleCodec.later] in
  Forall (λ a, complete codec a ∧ insert_error a = None
               ∧ valid_datetime (now a)) arrivals
  ∧ ∃ docs out,
      receive_loop codec arrivals fresh
      = (Ok (), {| collection := collection fresh ++ docs; stdout := out |})
      ∧ Forall2 (stored codec) arrivals docs
      ∧ Forall (λ doc, matches date_format (date doc) = true) docs
      ∧ (increasing dt_lt (now <$> arrivals)
         ↔ increasing str_lt (date <$> docs)).
Proof.
  intros codec arrivals.
  assert (Forall (λ a, complete codec a ∧ insert_error a = None
                       ∧ valid_datetime (now a)) arrivals) as Hall.
  { constructor; [|constructor; [|constructor]].
    - split; [|split; [reflexivity|apply sample_clocks_valid]].
      exists (str_lit "alice"), (str_lit "hi"). apply alice_complete.
    - split; [|split; [reflexivity|apply sample_clocks_valid]].
      exists (str_lit "bob"), (str_lit "hello"). apply bob_complete. }
  split; [exact Hall|].
  apply (complete_payloads_stored codec arrivals fresh). exact Hall.
Defined.

(** C7 as stated fails twice.  Two complete datagrams, both stored, the
    second after the clock was set back: the second [date] is not above
    the first.  One complete datagram whose insert raises: no record at
    all. *)
Lemma complete_payloads_counterexample :
  let codec := SampleCodec.codec in
  let clock_back := [SampleCodec.alice SampleCodec.before_three None;
                     SampleCodec.bob SampleCodec.set_back] in
  let store_down := [SampleCodec.alice SampleCodec.before_three
                       (Some SampleCodec.closed)] in
  (Forall (complete codec) clock_back
   ∧ ∃ d1 d2,
       collection (receive_loop codec clock_back fresh).2 = [d1; d2]
       ∧ ¬ increasing str_lt (date <$> [d1; d2]))
  ∧ (Forall (complete codec) store_down
     ∧ collection (receive_loop codec store_down fresh).2 = []).
Proof.
  repeat split.
  - repeat constructor.
    + exists (str_lit "alice"), (str_lit "hi"). apply alice_complete.
    + exists (str_lit "bob"), (str_lit "hello"). apply bob_complete.
  - eexists _, _. split; [vm_compute; reflexivity|].
    intros [Hlt _]. vm_compute in Hlt. discriminate Hlt.
  - repeat constructor.
    exists (str_lit "alice"), (str_lit "hi"). apply alice_complete.
Qed.

(** * Part III: further properties of the code *)

(** ** How a GET can end *)

Section outcome_facts.
Context (env : Env).

Lemma route_file_allowed route p ctype :
  route_file env route p ctype → allowed env p.
Proof.
  intros [r _|r _| |rel target _ Hu]; [left..|by right];
    unfold index_page, message_page, favicon; set_solver.
Qed.

Lemma error_page_allowed t :
  Forall (eq (error_page env)) (opened t) → Forall (allowed env) (opened t).
Proof.
  intros Ho. eapply Forall_impl; [exact Ho|]. intros p <-. left. set_solver.
Qed.

Lemma send_404_outcome d route :
  routes_outcome env route (_send_404 env d).
Proof.
  pose proof (proj1 (not_found_run_both env d)) as Hrun.
  destruct (_send_404 env d) as [[[]|e] t]; destruct Hrun as [Hw Ho].
  - apply outcome_not_found; [done|by apply error_page_allowed].
  - apply outcome_raised; [done|by apply error_page_allowed].
Qed.

Lemma send_html_file_outcome d route p :
  route_file env route p html →
  routes_outcome env route (_send_html_file env d p OK).
Proof.
  intros Hroute. destruct d as [|d]; [by apply outcome_raised|].
  rewrite _send_html_file_S, send_html_file_body_eq.
  destruct (exists_ env p) as [[]|e];
    [|apply send_404_outcome|by apply outcome_raised].
  destruct (is_file env p) as [[]|e];
    [|apply send_404_outcome|by apply outcome_raised].
  destruct (read_bytes env p) as [c|e] eqn:Hr.
  - by apply (outcome_served env route p html c).
  - apply outcome_raised; [done|]. cbn.
    constructor; [by eapply route_file_allowed|constructor].
Qed.

Lemma send_static_file_outcome d route p :
  route_file env route p (guessed env p) →
  routes_outcome env route (_send_static_file env d p OK).
Proof.
  intros Hroute. destruct d as [|d]; [by apply outcome_raised|].
  destruct (read_bytes env p) as [c|e] eqn:Hr.
  - rewrite (send_static_file_served env d p OK c Hr).
    by apply (outcome_served env route p (guessed env p) c).
  - unfold _send_static_file, call. rewrite Hr. cbn.
    apply outcome_raised; [done|]. cbn.
    constructor; [by eapply route_file_allowed|constructor].
Qed.

(** The [try] block of [do_GET] ends in one of the three ways. *)
Lemma do_GET_routes_outcome d route :
  routes_outcome env route (do_GET_routes env d route).
Proof.
  destruct (startswith route "/static/") eqn:Hs.
  - apply startswith_slice in Hs. set (rel := slice_from _ _) in Hs.
    clearbody rel. subst route. rewrite do_GET_routes_static.
    destruct (resolve env _) as [target|e] eqn:Hr;
      [|by apply outcome_raised].
    destruct (_is_under target (STATIC_DIR env)) eqn:Hu;
      [|apply send_404_outcome].
    apply _is_under_spec in Hu.
    destruct (is_file env target) as [[]|e];
      [|apply send_404_outcome|by apply outcome_raised].
    apply send_static_file_outcome. by apply route_static.
  - unfold do_GET_routes. rewrite Hs.
    destruct (String.eqb route "/" || String.eqb route "/index.html") eqn:H1.
    { apply send_html_file_outcome, route_home.
      apply orb_true_iff in H1 as [->%String.eqb_eq| ->%String.eqb_eq];
        set_solver. }
    destruct (String.eqb route "/message" || String.eqb route "/message.html")
      eqn:H2.
    { apply send_html_file_outcome, route_message.
      apply orb_true_iff in H2 as [->%String.eqb_eq| ->%String.eqb_eq];
        set_solver. }
    destruct (String.eqb_spec route "/favicon.ico") as [->|_];
      [|apply send_404_outcome].
    cbv zeta. unfold call.
    destruct (exists_ env _) as [[]|e]; [| |by apply outcome_raised].
    + rewrite (bind_ok true). apply send_static_file_outcome, route_favicon.
    + rewrite (bind_ok false). apply send_404_outcome.
Qed.

End outcome_facts.

(** ** Responses, files and datagrams of a run *)

Lemma elem_of_wire e t : is_wire e = true → e ∈ t → e ∈ wire t.
Proof.
  intros He. induction t as [|x t IH]; [done|].
  rewrite elem_of_cons. intros [<-|Hin]; simpl.
  - rewrite He. by left.
  - destruct (is_wire x); [right|]; by apply IH.
Qed.

Lemma is_404_not_200 w : is_404 w → SendResponse OK ∉ w.
Proof.
  intros [->|[c ->]]; unfold plain_404, response;
    rewrite !not_elem_of_cons; repeat split; try discriminate;
    apply not_elem_of_nil.
Qed.

Lemma datagrams_app t1 t2 :
  datagrams (t1 ++ t2) = datagrams t1 ++ datagrams t2.
Proof.
  induction t1 as [|e t1 IH]; simpl; [done|].
  destruct e; simpl; by rewrite IH.
Qed.

Section more_handler_facts.
Context (env : Env).

(** The two methods of the not-found behaviour send no datagram. *)
Lemma not_found_no_datagram d :
  datagrams (_send_404 env d).2 = []
  ∧ ∀ p st, datagrams (_send_html_file env d p st).2 = [].
Proof.
  induction d as [|d [IH4 IHh]]; [done|]. split.
  - rewrite _send_404_S, send_404_body_eq.
    destruct (exists_ env (error_page env)) as [[]|e]; [|done..].
    specialize (IHh (error_page env) NOT_FOUND).
    destruct (_send_html_file env d (error_page env) NOT_FOUND)
      as [[[]|e] t]; cbn [snd] in *; [done|].
    by rewrite datagrams_app, IHh.
  - intros p st. rewrite _send_html_file_S, send_html_file_body_eq.
    destruct (exists_ env p) as [[]|e]; [|done..].
    destruct (is_file env p) as [[]|e]; [|done..].
    by destruct (read_bytes env p).
Qed.

(** [do_GET], whatever the depth, for a target that parses. *)
Lemma do_GET_run d self url r t :
  urlparse env (path self) = Ok url →
  do_GET env d self = (r, t) →
  (∃ p ctype c,
     route_file env (urllib.path url) p ctype ∧ read_bytes env p = Ok c
     ∧ r = Ok () ∧ t = ReadBytes p :: response OK ctype c)
  ∨ (SendResponse OK ∉ t) ∧ Forall (allowed env) (opened t).
Proof.
  intros Hu. destruct d as [|d].
  { intros [= <- <-]. right. split; [apply not_elem_of_nil|constructor]. }
  rewrite (do_GET_eq env _ _ _ Hu).
  destruct (do_GET_routes_outcome env d (urllib.path url))
    as [p ctype c Hroute Hr|t0 Hw Ho|e t0 Hw Ho].
  - intros [= <- <-]. left. by exists p, ctype, c.
  - intros [= <- <-]. right. split; [|done].
    intros Hin. apply (is_404_not_200 _ Hw).
    by apply (elem_of_wire (SendResponse OK)).
  - unfold try_except.
    pose proof (proj1 (not_found_run_both env d)) as Hrun.
    destruct (_send_404 env d) as [r4 t4]. intros [= <- <-]. right.
    assert ((SendResponse OK ∉ wire t4) ∧ Forall (allowed env) (opened t4))
      as [Hn4 Ho4].
    { destruct r4; destruct Hrun as [Hw4 Ho4];
        (split; [|by apply error_page_allowed]).
      - by apply is_404_not_200.
      - rewrite Hw4. apply not_elem_of_nil. }
    split.
    + intros Hin. apply (elem_of_wire (SendResponse OK) _ eq_refl) in Hin.
      rewrite wire_app, Hw in Hin. by apply Hn4.
    + rewrite opened_app. by apply Forall_app.
Qed.

Lemma do_POST_opens d self r t :
  do_POST env d self = (r, t) → Forall (eq (error_page env)) (opened t).
Proof.
  destruct d as [|d]; [by intros [= <- <-]|]. unfold do_POST.
  destruct (negb (String.eqb (path self) "/submit")).
  { pose proof (proj1 (not_found_run_both env d)) as Hrun.
    intros H4. rewrite H4 in Hrun. destruct r; apply Hrun. }
  unfold call.
  destruct (py_int _) as [n|e]; [|by intros [= <- <-]].
  rewrite (bind_ok n).
  destruct (rfile_read _ _) as [body|e]; [|by intros [= <- <-]].
  rewrite (bind_ok body).
  destruct (socket_socket env) as [[]|s]; cbn [sock];
    [|by intros [= <- <-]].
  rewrite (bind_ok ()).
  destruct (sendto env body _) as [k|s]; by intros [= <- <-].
Qed.
End more_handler_facts.



(** X2.  Whatever the request, the depth and the outcome, [do_GET] and
    [do_POST] open no file but the three templates, the favicon and
    paths under the static root. *)
Theorem handlers_open_confined env d self r t :
  do_GET env d self = (r, t) ∨ do_POST env d self = (r, t) →
  Forall (allowed env) (opened t).
Proof.
  intros [Hget|Hpost].
  - destruct (urlparse env (path self)) as [url|e] eqn:Hu.
    + destruct (do_GET_run env d self url r t Hu Hget)
        as [(p & ctype & c & Hroute & _ & _ & ->)|[_ Ho]]; [|done].
      cbn. constructor; [by eapply route_file_allowed|constructor].
    + destruct d as [|d]; [by injection Hget as <- <-|].
      unfold do_GET, call in Hget. rewrite Hu in Hget.
      by injection Hget as <- <-.
  - by apply error_page_allowed, (do_POST_opens env d self r).
Qed.

Lemma handlers_open_confined_witness :
  let self := Sample.GET "/static/../main.py" in
  let t := ReadBytes (Sample.TEMPLATES ++ ["error.html"])
           :: response NOT_FOUND html (bytes_lit "<h1>not found</h1>") in
  do_GET Sample.env 3 self = (Ok (), t)
  ∧ Forall (allowed Sample.env) (opened t).
Proof.
  intros self t.
  assert (do_GET Sample.env 3 self = (Ok (), t)) as Hget
    by (vm_compute; reflexivity).
  split; [exact Hget|].
  apply (handlers_open_confined Sample.env 3 self (Ok ()) t).
  left. exact Hget.
Defined.

(** X3.  A 200 status is sent by [do_GET] only for a route of the
    table (for a static route: one that resolves under the static
    root), after the file of that route was read; the body is its
    content, and nothing else is opened or written. *)
Theorem GET_200_only_from_table env d self url r t :
  urlparse env (path self) = Ok url →
  do_GET env d self = (r, t) →
  SendResponse OK ∈ t →
  ∃ p ctype c,
    route_file env (urllib.path url) p ctype
    ∧ read_bytes env p = Ok c
    ∧ r = Ok ()
    ∧ t = ReadBytes p :: response OK ctype c.
Proof.
  intros Hu Hget Hin.
  destruct (do_GET_run env d self url r t Hu Hget)
    as [(p & ctype & c & ?)|[Hn _]]; [by exists p, ctype, c|done].
Qed.

Lemma GET_200_only_from_table_witness :
  let self := Sample.GET "/static/blob" in
  let t := ReadBytes (Sample.STATIC ++ ["blob"])
           :: response OK "application/octet-stream" (bytes_lit "xyz") in
  (urlparse Sample.env (path self) = Ok (Sample.bare "/static/blob")
   ∧ do_GET Sample.env 3 self = (Ok (), t)
   ∧ SendResponse OK ∈ t)
  ∧ ∃ p ctype c,
      route_file Sample.env "/static/blob" p ctype
      ∧ read_bytes Sample.env p = Ok c
      ∧ Ok () = Ok ()
      ∧ t = ReadBytes p :: response OK ctype c.
Proof.
  intros self t.
  assert (do_GET Sample.env 3 self = (Ok (), t)) as Hget
    by (vm_compute; reflexivity).
  assert (SendResponse OK ∈ t) as Hin
    by (unfold t; rewrite !elem_of_cons; by right; left).
  split; [split; [reflexivity|split; [exact Hget|exact Hin]]|].
  apply (GET_200_only_from_table Sample.env 3 self
           (Sample.bare "/static/blob") (Ok ()) t).
  - reflexivity.
  - exact Hget.
  - exact Hin.
Defined.


(** When [rfile.read(n)] returns: everything for [-1], nothing for 0,
    and otherwise the first [n] bytes, [n] being a length a [bytes]
    object can have and the machine has the memory for. *)
Lemma rfile_read_returns mem f n body :
  rfile_read mem f n = Ok body →
  n = -1 ∧ body = f
  ∨ n = 0 ∧ body = []
  ∨ (0 < n ≤ sys_maxsize - PyBytesObject_SIZE) ∧ mem n = true
    ∧ body = take (Z.to_nat n) f.
Proof.
  unfold rfile_read.
  destruct (Z.ltb_spec n (- sys_maxsize - 1)); [done|].
  destruct (Z.ltb_spec sys_maxsize n); [done|]. cbn [orb].
  destruct (Z.ltb_spec n (-1)); [done|].
  destruct (Z.eqb_spec n (-1)); [intros [= <-]; by left|].
  destruct (Z.eqb_spec n 0); [intros [= <-]; by right; left|].
  destruct (Z.ltb_spec (sys_maxsize - PyBytesObject_SIZE) n); [done|].
  destruct (mem n) eqn:Hmem; [|done].
  intros [= <-]. right; right. split; [lia|done].
Qed.

(** What [rfile.read(n)] raises. *)
Lemma rfile_read_raises mem f n e :
  rfile_read mem f n = Raise e →
  exc_cls e = ValueError ∧ n < -1
  ∨ exc_cls e = OverflowError
    ∧ (n < - sys_maxsize - 1 ∨ sys_maxsize - PyBytesObject_SIZE < n)
  ∨ exc_cls e = MemoryError
    ∧ (0 < n ≤ sys_maxsize - PyBytesObject_SIZE) ∧ mem n = false.
Proof.
  assert (0 < PyBytesObject_SIZE) by reflexivity.
  unfold rfile_read.
  destruct (Z.ltb_spec n (- sys_maxsize - 1));
    [intros [= <-]; right; left; split; [done|by left]|].
  destruct (Z.ltb_spec sys_maxsize n);
    [intros [= <-]; right; left; split; [done|right; lia]|]. cbn [orb].
  destruct (Z.ltb_spec n (-1)); [intros [= <-]; by left|].
  destruct (Z.eqb_spec n (-1)); [done|].
  destruct (Z.eqb_spec n 0); [done|].
  destruct (Z.ltb_spec (sys_maxsize - PyBytesObject_SIZE) n);
    [intros [= <-]; right; left; split; [done|by right]|].
  destruct (mem n) eqn:Hmem; [done|].
  intros [= <-]. right; right. split; [done|]. split; [lia|done].
Qed.

(** X5.  When the read of [n] bytes, [n] not negative, returns (no
    [bytes] object is too long for it and the machine has the memory),
    the datagram [do_POST] hands to [sendto] is the first [n] bytes of
    the request body, unchanged (all of it when fewer arrive), addressed
    to the storage endpoint; extra bytes are not forwarded. *)
Theorem POST_forwards_prefix env d self n body :
  path self = "/submit" →
  py_int (default "0" (headers self "Content-Length")) = Ok n →
  0 ≤ n →
  rfile_read (enough_memory env) (rfile self) n = Ok body →
  socket_socket env = SockOk () →
  body = take (Z.to_nat n) (rfile self)
  ∧ length body = Nat.min (Z.to_nat n) (length (rfile self))
  ∧ ∃ t, do_POST env (S d) self = (Ok (), t)
         ∧ datagrams t = [(body, (SOCKET_HOST, SOCKET_PORT))]
         ∧ wire t = redirect.
Proof.
  intros Hp Hn Hrange Hb Hs.
  assert (body = take (Z.to_nat n) (rfile self)) as Hbody.
  { destruct (rfile_read_returns _ _ _ _ Hb) as [[? _]|[[-> ->]|(_ & _ & ->)]];
      [lia|done..]. }
  split; [exact Hbody|]. split; [rewrite Hbody; apply length_take|].
  rewrite (do_POST_submit env d self n body Hp Hn Hb), Hs.
  destruct (sendto env body _); by eexists.
Qed.

Lemma POST_forwards_prefix_witness :
  let self := Sample.POST "/submit" (Some "5") "username=a&message=b" in
  let body := bytes_lit "usern" in
  (path self = "/submit"
   ∧ py_int (default "0" (headers self "Content-Length")) = Ok 5
   ∧ 0 ≤ 5
   ∧ rfile_read (enough_memory Sample.env) (rfile self) 5 = Ok body
   ∧ socket_socket Sample.env = SockOk ())
  ∧ body = take (Z.to_nat 5) (rfile self)
  ∧ length body = Nat.min (Z.to_nat 5) (length (rfile self))
  ∧ ∃ t, do_POST Sample.env 1 self = (Ok (), t)
         ∧ datagrams t = [(body, (SOCKET_HOST, SOCKET_PORT))]
         ∧ wire t = redirect.
Proof.
  intros self body.
  assert (py_int (default "0" (headers self "Content-Length")) = Ok 5)
    as Hn by (vm_compute; reflexivity).
  assert (0 ≤ 5) as Hrange by lia.
  assert (rfile_read (enough_memory Sample.env) (rfile self) 5 = Ok body)
    as Hb by (vm_compute; reflexivity).
  split; [split; [reflexivity|split; [exact Hn|split;
                  [exact Hrange|split; [exact Hb|reflexivity]]]]|].
  apply (POST_forwards_prefix Sample.env 0 self 5 body).
  - reflexivity.
  - exact Hn.
  - exact Hrange.
  - exact Hb.
  - reflexivity.
Defined.

(** X6.  On [/submit], a [Content-Length] that [int] rejects, or one
    below -1 or above [sys.maxsize], makes [do_POST] raise before it
    sends a datagram or writes a response. *)
Theorem POST_rejected_length env d self :
  path self = "/submit" →
  (∀ e, py_int (default "0" (headers self "Content-Length")) = Raise e →
        do_POST env (S d) self = (Raise e, []))
  ∧ (∀ n, py_int (default "0" (headers self "Content-Length")) = Ok n →
          n < -1 ∨ sys_maxsize < n →
          ∃ e, do_POST env (S d) self = (Raise e, [])
               ∧ exc_cls e ∈ [ValueError; OverflowError]).
Proof.
  intros Hp. split.
  - intros e He. unfold do_POST, call. by rewrite Hp, He.
  - intros n Hn Hrange. assert (0 < sys_maxsize) as Hmax by reflexivity.
    unfold do_POST, call. rewrite Hp, Hn.
    cbn [String.eqb Ascii.eqb Bool.eqb negb]. rewrite (bind_ok n).
    assert (0 < PyBytesObject_SIZE) as Hsize by reflexivity.
    destruct (rfile_read (enough_memory env) (rfile self) n)
      as [body|e] eqn:Hb.
    + apply rfile_read_returns in Hb. lia.
    + exists e. split; [reflexivity|]. rewrite !elem_of_cons.
      destruct (rfile_read_raises _ _ _ _ Hb) as [[-> _]|[[-> _]|[_ [? _]]]];
        [by left|by right; left|lia].
Qed.

Lemma POST_rejected_length_witness :
  let words := Sample.POST "/submit" (Some "ten") "username=a" in
  let minus := Sample.POST "/submit" (Some "-5") "username=a" in
  (path words = "/submit" ∧ path minus = "/submit")
  ∧ do_POST Sample.env 1 words = (Raise invalid_literal, [])
  ∧ ∃ e, do_POST Sample.env 1 minus = (Raise e, [])
         ∧ exc_cls e ∈ [ValueError; OverflowError].
Proof.
  intros words minus. split; [split; reflexivity|]. split.
  - apply (POST_rejected_length Sample.env 0 words eq_refl).
    vm_compute. reflexivity.
  - apply (proj2 (POST_rejected_length Sample.env 0 minus eq_refl) (-5)).
    + vm_compute. reflexivity.
    + left. lia.
Defined.

(** A target in absolute form whose host bracket is not closed. *)
Lemma do_GET_unparsable_witness :
  let self := Sample.GET "http://[::1/index.html" in
  let e := Exc ValueError "Invalid IPv6 URL" in
  urlparse Edge.env_strict (path self) = Raise e
  ∧ do_GET Edge.env_strict 3 self = (Raise e, []).
Proof.
  intros self e. split; [vm_compute; reflexivity|].
  apply (do_GET_unparsable Edge.env_strict 2 self e).
  vm_compute. reflexivity.
Defined.

(** ** [_is_under] and the error page *)

Lemma append_same_r name more : name +:+ more = name → more = "".
Proof.
  induction name as [|c name IH]; [done|].
  change (String c name +:+ more) with (String c (name +:+ more)).
  intros [= Heq]. by apply IH.
Qed.

(** X9.  [_is_under] compares whole path components: a sibling whose
    name only starts with the name of the root ([static-old] beside
    [static]) is not under it, what lies below the root is, and the
    parent of the root is not. *)
Theorem is_under_whole_components root name more rest :
  more ≠ "" →
  _is_under (root ++ (name +:+ more) :: rest) (root ++ [name]) = false
  ∧ _is_under (root ++ name :: rest) (root ++ [name]) = true
  ∧ _is_under root (root ++ [name]) = false.
Proof.
  intros Hmore. split; [|split].
  - destruct (_is_under _ _) eqn:Hu; [|done].
    apply _is_under_spec in Hu as [rest' Heq].
    rewrite <- app_assoc in Heq. apply app_inv_head in Heq.
    injection Heq as Heq _. by apply append_same_r in Heq.
  - apply _is_under_spec. exists rest. by rewrite <- app_assoc.
  - destruct (_is_under _ _) eqn:Hu; [|done].
    apply _is_under_spec in Hu as [rest' Heq].
    apply (f_equal length) in Heq. rewrite !length_app in Heq.
    simpl in Heq. lia.
Qed.

Lemma is_under_whole_components_witness :
  let root := ["/"; "srv"; "app"] in
  "-old" ≠ ""
  ∧ _is_under (root ++ ("static" +:+ "-old") :: ["secret.txt"])
      (root ++ ["static"]) = false
  ∧ _is_under (root ++ "static" :: ["secret.txt"]) (root ++ ["static"]) = true
  ∧ _is_under root (root ++ ["static"]) = false.
Proof.
  intros root. assert ("-old" ≠ "") as Hne by discriminate.
  split; [exact Hne|].
  apply (is_under_whole_components root "static" "-old" ["secret.txt"] Hne).
Defined.



(** ** Datagrams and the outcomes of a POST *)

Section datagram_facts.
Context (env : Env).

Lemma send_static_file_no_datagram d p st :
  datagrams (_send_static_file env d p st).2 = [].
Proof.
  destruct d as [|d]; [done|]. unfold _send_static_file, call.
  destruct (read_bytes env p) as [c|e]; [|done].
  by destruct (guess_type env _).
Qed.

Lemma try_no_datagram (m : Eff unit) d :
  datagrams m.2 = [] →
  datagrams (try_except m (λ _, _send_404 env d)).2 = [].
Proof.
  destruct m as [[[]|e] t]; cbn [snd try_except]; [done|]. intros Ht.
  pose proof (proj1 (not_found_no_datagram env d)) as H4.
  destruct (_send_404 env d) as [r4 t4]. cbn [snd] in *.
  by rewrite datagrams_app, Ht, H4.
Qed.

Lemma do_GET_routes_no_datagram d route :
  datagrams (do_GET_routes env d route).2 = [].
Proof.
  pose proof (proj1 (not_found_no_datagram env d)) as H4.
  pose proof (proj2 (not_found_no_datagram env d)) as Hh.
  destruct (startswith route "/static/") eqn:Hs.
  - apply startswith_slice in Hs. set (rel := slice_from _ _) in Hs.
    clearbody rel. subst route. rewrite do_GET_routes_static.
    destruct (resolve env _) as [target|e]; [|done].
    destruct (_is_under target (STATIC_DIR env)); [|done].
    destruct (is_file env target) as [[]|e]; [|done..].
    apply send_static_file_no_datagram.
  - unfold do_GET_routes. rewrite Hs.
    destruct (String.eqb route "/" || String.eqb route "/index.html");
      [apply Hh|].
    destruct (String.eqb route "/message" || String.eqb route "/message.html");
      [apply Hh|].
    destruct (String.eqb route "/favicon.ico"); [|done].
    cbv zeta. unfold call.
    destruct (exists_ env _) as [[]|e]; [| |done].
    + rewrite (bind_ok true). apply send_static_file_no_datagram.
    + by rewrite (bind_ok false).
Qed.

(** How [do_POST] can end. *)
Lemma do_POST_run d self :
  (∃ t, do_POST env (S (S d)) self = (Ok (), t)
        ∧ path self ≠ "/submit" ∧ is_404 (wire t) ∧ datagrams t = [])
  ∨ (∃ t, do_POST env (S (S d)) self = (Ok (), t)
          ∧ path self = "/submit" ∧ wire t = redirect
          ∧ (datagrams t = []
             ∨ ∃ body, datagrams t = [(body, (SOCKET_HOST, SOCKET_PORT))]))
  ∨ ∃ e, do_POST env (S (S d)) self = (Raise e, [])
         ∧ path self = "/submit".
Proof.
  destruct (String.eqb_spec (path self) "/submit") as [Hp|Hp].
  - destruct (py_int (default "0" (headers self "Content-Length")))
      as [n|e] eqn:Hn.
    + destruct (rfile_read (enough_memory env) (rfile self) n) as [body|e] eqn:Hb.
      * right; left.
        rewrite (do_POST_submit env (S d) self n body Hp Hn Hb).
        destruct (socket_socket env) as [[]|s];
          [destruct (sendto env body _)|]; eexists;
          (split; [reflexivity|]); (split; [done|]);
          (split; [reflexivity|]); cbn; eauto.
      * right; right. exists e. split; [|done].
        unfold do_POST, call. rewrite Hp, Hn.
        cbn [String.eqb Ascii.eqb Bool.eqb negb].
        by rewrite (bind_ok n), Hb.
    + right; right. exists e. split; [|done].
      unfold do_POST, call. by rewrite Hp, Hn.
  - left. apply String.eqb_neq in Hp as Hpb.
    destruct (send_404_returns env d) as (t & Ht & Hw & _).
    exists t. unfold do_POST. rewrite Hpb. cbn [negb].
    split; [exact Ht|]. split; [done|]. split; [done|].
    pose proof (proj1 (not_found_no_datagram env (S d))) as Hd.
    by rewrite Ht in Hd.
Qed.
End datagram_facts.

(** X8.  [do_GET] never sends a datagram.  [do_POST] sends at most
    one, always to the storage endpoint, and none when the path is not
    [/submit]. *)
Theorem datagram_discipline env d self :
  datagrams (do_GET env d self).2 = []
  ∧ (length (datagrams (do_POST env (S (S d)) self).2) ≤ 1)%nat
  ∧ Forall (λ dg, dg.2 = (SOCKET_HOST, SOCKET_PORT))
      (datagrams (do_POST env (S (S d)) self).2)
  ∧ (path self ≠ "/submit" →
     datagrams (do_POST env (S (S d)) self).2 = []).
Proof.
  split.
  - destruct d as [|d]; [done|]. unfold do_GET, call.
    destruct (urlparse env (path self)) as [url|e]; [|done].
    rewrite (bind_ok url).
    apply try_no_datagram, do_GET_routes_no_datagram.
  - destruct (do_POST_run env d self)
      as [(t & -> & Hp & _ & Hd)|[(t & -> & Hp & _ & Hd)|(e & -> & Hp)]];
      cbn [snd].
    + rewrite Hd. split; [cbn; lia|]. split; [constructor|done].
    + destruct Hd as [->|[body ->]].
      * split; [cbn; lia|]. split; [constructor|done].
      * split; [cbn; lia|]. split; [by repeat constructor|done].
    + split; [cbn; lia|]. split; [constructor|done].
Qed.



(** ** [strip] *)

Lemma lstrip_suffix s : ∃ sp, s = sp ++ lstrip s.
Proof.
  induction s as [|c s [sp IH]]; [by exists []|]. simpl.
  destruct (isspace c); [|by exists []].
  exists (c :: sp). simpl. by rewrite <- IH.
Qed.

Lemma lstrip_head s c s' : lstrip s = c :: s' → isspace c = false.
Proof.
  induction s as [|x s IH]; [done|]. simpl.
  destruct (isspace x) eqn:Hx; [exact IH|]. by intros [= <- _].
Qed.

Lemma lstrip_fixed c s : isspace c = false → lstrip (c :: s) = c :: s.
Proof. intros Hc. simpl. by rewrite Hc. Qed.

(** What [strip] returns has no space at either end: stripping it again
    changes nothing. *)
Lemma strip_idemp s : strip (strip s) = strip s.
Proof.
  unfold strip, rstrip.
  destruct (lstrip s) as [|c a] eqn:Ha; [done|].
  apply lstrip_head in Ha as Hc.
  destruct (lstrip_suffix (rev (c :: a))) as [sp Hsp].
  destruct (lstrip (rev (c :: a))) as [|x y] eqn:Hb; [done|].
  apply lstrip_head in Hb as Hx.
  assert (∃ z, rev (x :: y) = c :: z) as [z Hz].
  { apply (f_equal (@rev N)) in Hsp.
    rewrite rev_involutive, rev_app_distr in Hsp.
    destruct (rev (x :: y)) as [|h z] eqn:Hr.
    - apply (f_equal (@rev N)) in Hr. rewrite rev_involutive in Hr. done.
    - injection Hsp as -> _. by exists z. }
  rewrite Hz, (lstrip_fixed c z Hc), <- Hz, rev_involutive.
  by rewrite (lstrip_fixed x y Hx).
Qed.

Lemma field_stripped parsed key v : field parsed key = Ok v → strip v = v.
Proof.
  unfold field. destruct (index0 _) as [w|e]; [|done].
  intros [= <-]. apply strip_idemp.
Qed.

Lemma field_present parsed key :
  parsed !! key ≠ Some [] → ∃ v, field parsed key = Ok v.
Proof.
  unfold field. destruct (parsed !! key) as [[|w ws]|]; [done|..]; by eexists.
Qed.

Section more_loop_facts.
Context (codec : Codec).

Lemma loop_body_adds a st :
  valid_datetime (now a) →
  ∃ docs,
    collection (loop_body codec a st).2 = collection st ++ docs
    ∧ (length docs ≤ 1)%nat
    ∧ Forall well_formed_doc docs.
Proof.
  intros Hv. rewrite loop_body_eq.
  destruct (field _ (str_lit "username")) as [un|e] eqn:Hu;
    [|exists []; rewrite app_nil_r; repeat split; [cbn; lia|constructor]].
  destruct (field _ (str_lit "message")) as [msg|e] eqn:Hm;
    [|exists []; rewrite app_nil_r; repeat split; [cbn; lia|constructor]].
  cbn zeta. destruct (truthy un && truthy msg) eqn:Ht;
    [|exists []; rewrite app_nil_r; repeat split; [cbn; lia|constructor]].
  destruct (insert_error a);
    [exists []; rewrite app_nil_r; repeat split; [cbn; lia|constructor]|].
  eexists [_]. split; [reflexivity|]. split; [cbn; lia|].
  constructor; [|constructor].
  apply andb_true_iff in Ht as [Htu Htm].
  unfold well_formed_doc. cbn [username message date].
  repeat split.
  - by destruct un.
  - by destruct msg.
  - by eapply field_stripped.
  - by eapply field_stripped.
  - by apply strftime_format.
Qed.

Lemma loop_body_survives a st :
  form codec a !! str_lit "username" ≠ Some [] →
  form codec a !! str_lit "message" ≠ Some [] →
  ∃ verdict st',
    loop_body codec a st = (Ok (), st')
    ∧ stdout st' = stdout st ++ [received codec a; verdict].
Proof.
  intros [un Hu]%field_present [msg Hm]%field_present.
  rewrite loop_body_eq, Hu, Hm. cbn zeta.
  destruct (truthy un && truthy msg); [destruct (insert_error a)|];
    by eexists _, _.
Qed.
End more_loop_facts.

(** X11.  Whatever arrives, the loop only appends to the collection,
    at most one record per datagram, and every record it appends has a
    non-empty, trimmed [username] and [message]; with the clock in the
    years 1000 to 9999, its [date] has the format
    [YYYY-MM-DD HH:MM:SS.ffffff]. *)
Theorem stored_records_invariant codec arrivals st :
  Forall (λ a, valid_datetime (now a)) arrivals →
  ∃ docs,
    collection (receive_loop codec arrivals st).2 = collection st ++ docs
    ∧ (length docs ≤ length arrivals)%nat
    ∧ Forall well_formed_doc docs.
Proof.
  intros Hall. revert st.
  induction Hall as [|a arrivals Hv _ IH]; intros st.
  { exists []. rewrite app_nil_r. repeat split; [cbn; lia|constructor]. }
  rewrite receive_loop_cons.
  destruct (loop_body_adds codec a st Hv) as (docs1 & H1 & Hl1 & Hw1).
  destruct (loop_body codec a st) as [[[]|e] st1]; cbn [snd] in H1.
  - destruct (IH st1) as (docs2 & H2 & Hl2 & Hw2).
    exists (docs1 ++ docs2). rewrite H2, H1, <- app_assoc.
    split; [done|]. split; [rewrite length_app; cbn; lia|].
    by apply Forall_app.
  - exists docs1. cbn [snd]. split; [done|]. split; [cbn; lia|done].
Qed.

Lemma stored_records_invariant_witness :
  let codec := SampleCodec.codec in
  let arrivals := [SampleCodec.alice SampleCodec.before_three
                     (Some SampleCodec.closed);
                   SampleCodec.nameless;
                   SampleCodec.bob SampleCodec.later] in
  Forall (λ a, valid_datetime (now a)) arrivals
  ∧ ∃ docs,
      collection (receive_loop codec arrivals fresh).2
      = collection fresh ++ docs
      ∧ (length docs ≤ length arrivals)%nat
      ∧ Forall well_formed_doc docs.
Proof.
  intros codec arrivals.
  assert (Forall (λ a, valid_datetime (now a)) arrivals) as Hall.
  { constructor; [apply sample_clocks_valid|].
    constructor; [apply sample_clocks_valid|].
    constructor; [apply sample_clocks_valid|constructor]. }
  split; [exact Hall|].
  apply (stored_records_invariant codec arrivals fresh). exact Hall.
Defined.

(** X12.  When no value list of [username] or [message] is empty (as
    [parse_qs] guarantees), no datagram stops the loop: it returns after
    the last arrival, having printed two lines for each, the first of
    them the [received] line. *)
Theorem receive_loop_survives codec arrivals st :
  Forall (λ a, form codec a !! str_lit "username" ≠ Some []
               ∧ form codec a !! str_lit "message" ≠ Some []) arrivals →
  ∃ st' lines,
    receive_loop codec arrivals st = (Ok (), st')
    ∧ stdout st' = stdout st ++ lines
    ∧ length lines = (2 * length arrivals)%nat
    ∧ Forall (λ a, received codec a ∈ lines) arrivals.
Proof.
  intros Hall. revert st.
  induction Hall as [|a arrivals [Hu Hm] _ IH]; intros st.
  { exists st, []. rewrite app_nil_r. by repeat split. }
  rewrite receive_loop_cons.
  destruct (loop_body_survives codec a st Hu Hm) as (v & st1 & -> & H1).
  destruct (IH st1) as (st' & lines & -> & H2 & Hlen & Hin).
  exists st', ([received codec a; v] ++ lines).
  split; [done|]. split; [by rewrite H2, H1, <- app_assoc|].
  split; [rewrite length_app; cbn; lia|].
  constructor.
  - rewrite elem_of_app, elem_of_cons. by left; left.
  - eapply Forall_impl; [exact Hin|]. intros a' Ha'.
    rewrite elem_of_app. by right.
Qed.

Lemma receive_loop_survives_witness :
  let codec := SampleCodec.codec in
  let arrivals := [SampleCodec.alice SampleCodec.before_three
                     (Some SampleCodec.closed);
                   SampleCodec.nameless] in
  Forall (λ a, form codec a !! str_lit "username" ≠ Some []
               ∧ form codec a !! str_lit "message" ≠ Some []) arrivals
  ∧ ∃ st' lines,
      receive_loop codec arrivals fresh = (Ok (), st')
      ∧ stdout st' = stdout fresh ++ lines
      ∧ length lines = (2 * length arrivals)%nat
      ∧ Forall (λ a, received codec a ∈ lines) arrivals.
Proof.
  intros codec arrivals.
  assert (Forall (λ a, form codec a !! str_lit "username" ≠ Some []
                       ∧ form codec a !! str_lit "message" ≠ Some [])
            arrivals) as Hall.
  { constructor; [|constructor; [|constructor]];
      split; intros Hk; vm_compute in Hk; discriminate Hk. }
  split; [exact Hall|].
  apply (receive_loop_survives codec arrivals fresh). exact Hall.
Defined.

(** X13.  When the store cannot be reached at start,
    [run_socket_server] prints one line (which one depends on whether
    the exception is a [ConnectionFailure]) and returns without
    receiving any datagram; when the socket cannot be bound it raises
    [OSError].  The collection is untouched in both cases. *)
Theorem startup_failure_stops codec arrivals st :
  (∀ e bind,
     run_socket_server codec (Raise e) bind arrivals st
     = (Ok (), log st [if decide (exc_cls e = ConnectionFailure)
                       then ConnectionFailed e else InitError e]))
  ∧ (∀ s,
       run_socket_server codec (Ok ()) (SockError s) arrivals st
       = (Raise (Exc OSError s), log st [Connected])).
Proof.
  split.
  - intros e bind. rewrite run_socket_server_no_store.
    by destruct e as [[] msg].
  - intros s. reflexivity.
Qed.

(** X14.  From the form to the store: when [do_POST] reads a body and
    the socket is there, it hands that body to [sendto] and redirects;
    when the same bytes arrive at the loop with both fields filled, the
    clock in the years 1000 to 9999 and the insert succeeds, the
    collection gains the record of the two trimmed fields, stamped with
    the clock reading in the format [YYYY-MM-DD HH:MM:SS.ffffff]. *)
Theorem submission_end_to_end env codec d self n a st un msg :
  path self = "/submit" →
  py_int (default "0" (headers self "Content-Length")) = Ok n →
  rfile_read (enough_memory env) (rfile self) n = Ok (payload a) →
  socket_socket env = SockOk () →
  filled (form codec a) (str_lit "username") un →
  filled (form codec a) (str_lit "message") msg →
  insert_error a = None →
  valid_datetime (now a) →
  (∃ t, do_POST env (S d) self = (Ok (), t)
        ∧ wire t = redirect
        ∧ datagrams t = [(payload a, (SOCKET_HOST, SOCKET_PORT))])
  ∧ collection (loop_body codec a st).2
    = collection st ++ [ {| date := strftime (now a);
                            username := un; message := msg |} ]
  ∧ matches date_format (strftime (now a)) = true.
Proof.
  intros Hp Hn Hb Hs [Hu Htu]%field_filled [Hm Htm]%field_filled Hi Hv.
  split; [|split].
  - rewrite (do_POST_submit env d self n (payload a) Hp Hn Hb), Hs.
    destruct (sendto env _ _); by eexists.
  - rewrite loop_body_eq, Hu, Hm. cbn zeta. by rewrite Htu, Htm, Hi.
  - by apply strftime_format.
Qed.

Lemma submission_end_to_end_witness :
  let self := Sample.POST "/submit" (Some "25") "username=alice&message=hi" in
  let a := SampleCodec.alice SampleCodec.before_three None in
  (path self = "/submit"
   ∧ py_int (default "0" (headers self "Content-Length")) = Ok 25
   ∧ rfile_read (enough_memory Sample.env) (rfile self) 25 = Ok (payload a)
   ∧ socket_socket Sample.env = SockOk ()
   ∧ valid_datetime (now a))
  ∧ (∃ t, do_POST Sample.env 1 self = (Ok (), t)
          ∧ wire t = redirect
          ∧ datagrams t = [(payload a, (SOCKET_HOST, SOCKET_PORT))])
  ∧ collection (loop_body SampleCodec.codec a fresh).2
    = collection fresh ++ [ {| date := strftime (now a);
                               username := str_lit "alice";
                               message := str_lit "hi" |} ]
  ∧ matches date_format (strftime (now a)) = true.
Proof.
  intros self a.
  assert (py_int (default "0" (headers self "Content-Length")) = Ok 25)
    as Hn by (vm_compute; reflexivity).
  assert (rfile_read (enough_memory Sample.env) (rfile self) 25
          = Ok (payload a))
    as Hb by (vm_compute; reflexivity).
  split; [split; [reflexivity|split; [exact Hn|split;
                  [exact Hb|split;
                   [reflexivity|apply sample_clocks_valid]]]]|].
  apply (submission_end_to_end Sample.env SampleCodec.codec 0 self 25 a
           fresh (str_lit "alice") (str_lit "hi")).
  - reflexivity.
  - exact Hn.
  - exact Hb.
  - reflexivity.
  - apply alice_complete.
  - apply alice_complete.
  - reflexivity.
  - apply sample_clocks_valid.
Defined.
